(** * Finitude: occurrence calculator and card sequencer

    A shallow embedding of the calculation utilities
    ([calculateRemainingOccurrences] and friends), of the legacy helpers of
    [src/utils/dataLoader.js], and of the card rotation logic of the
    [Finitude] component ([src/Finitude.js]).

    Modelling conventions.
    - A JavaScript number is an exact rational ([Q]), and an integer ([Z])
      where the code computes with integers only.  A value that passes
      through a product with a looked-up multiplier is a [Js.number]: a
      rational or [NaN].  The binary rounding of IEEE arithmetic, its
      infinities and the sign of zero are outside the model.  The theorems
      are stated so that they hold of the rounded arithmetic as well: they
      compare results of one and the same product, bound a result from one
      side, or give a value on whole numbers, where the arithmetic of the
      code is exact.
    - A property that may be [null] or [undefined] is an [option]; the
      operators [||] and [!] keep their JavaScript reading on it, so the
      number 0 is falsy exactly like a missing value.
    - An object literal used as a lookup table is a finite map over its own
      entries, read through [Js.get], which also finds the members every
      object inherits from [Object.prototype].
    - [new Date()] is an explicit argument.
    - The remainder operator [%] is [Z.rem] (sign of the dividend). *)

From stdpp Require Import gmap strings.
From Stdlib Require Import ZArith QArith Qround Qminmax Lqa Lia.

Local Open Scope Z_scope.

(** ** JavaScript operators *)

Module Js.

(** [v || d] on a possibly missing number. *)
Definition or_default (v : option Q) (d : Q) : Q :=
  match v with
  | Some q => if Qeq_bool q 0 then d else q
  | None => d
  end.

(** [!v] on a possibly missing number. *)
Definition not (v : option Q) : bool :=
  match v with
  | Some q => Qeq_bool q 0
  | None => true
  end.

(** [Number(v)]: [null] converts to 0. *)
Definition to_number (v : option Q) : Q :=
  match v with
  | Some q => q
  | None => 0
  end.

Definition Math_max (a b : Q) : Q := if Qle_bool a b then b else a.

Definition Math_floor (q : Q) : Z := Qfloor q.

(** [Math.round] rounds to the nearest integer, ties towards plus infinity. *)
Definition Math_round (q : Q) : Z := Qfloor (q + (1 # 2)).

(** *** Numbers that may be [NaN] *)

Inductive number := Num (q : Q) | NaN.

Definition mul (a b : number) : number :=
  match a, b with
  | Num x, Num y => Num (x * y)
  | _, _ => NaN
  end.

Definition sub (a b : number) : number :=
  match a, b with
  | Num x, Num y => Num (x - y)
  | _, _ => NaN
  end.

(** [a / b].  The one division of the code runs after its divisor has been
    tested against 0, so that the quotient by 0 is never taken: 0/0 is
    [NaN], and the infinite quotients are left out. *)
Definition div (a b : number) : number :=
  match a, b with
  | Num x, Num y => if Qeq_bool y 0 then NaN else Num (x / y)
  | _, _ => NaN
  end.

(** [Math.floor] and [Math.round] on such a number. *)
Definition floor (a : number) : number :=
  match a with
  | Num x => Num (inject_Z (Math_floor x))
  | NaN => NaN
  end.

Definition round (a : number) : number :=
  match a with
  | Num x => Num (inject_Z (Math_round x))
  | NaN => NaN
  end.

(** [a === 0] *)
Definition isZero (a : number) : bool :=
  match a with
  | Num x => Qeq_bool x 0
  | NaN => false
  end.

(** The comparisons [a <= b], [a < b] and [a == b]: each is false as soon
    as an operand is [NaN]. *)
Definition le (a b : number) : Prop :=
  match a, b with
  | Num x, Num y => (x <= y)%Q
  | _, _ => False
  end.


Definition eqv (a b : number) : Prop :=
  match a, b with
  | Num x, Num y => (x == y)%Q
  | _, _ => False
  end.

(** *** Property reads *)

(** The names every object literal inherits from [Object.prototype].  Each
    is bound to a function, [__proto__] to the prototype object itself. *)
Definition objectPrototype : list string :=
  [ "constructor"; "__defineGetter__"; "__defineSetter__"; "hasOwnProperty";
    "__lookupGetter__"; "__lookupSetter__"; "isPrototypeOf";
    "propertyIsEnumerable"; "toString"; "valueOf"; "__proto__";
    "toLocaleString" ].

(** What [o[k]] reads on an object literal [o] with numeric entries: its
    own entry, else an inherited member, else [undefined]. *)
Inductive property := Own (q : Q) | Inherited | Undefined.

Definition get (o : gmap string Q) (k : string) : property :=
  match o !! k with
  | Some q => Own q
  | None => if bool_decide (k ∈ objectPrototype) then Inherited else Undefined
  end.

(** [v || d] as an operand of a product: an inherited member is truthy, and
    converts to [NaN]. *)
Definition or_number (v : property) (d : Q) : number :=
  match v with
  | Own q => if Qeq_bool q 0 then Num d else Num q
  | Inherited => NaN
  | Undefined => Num d
  end.

End Js.

(** ** Data *)

Record Frequency := { times : Q; period : string }.

Record AgeRange := {
  start : option Q;
  end_ : option Q;
  (** a missing flag reads as [false] *)
  flexible_end : bool
}.

Record Activity := { frequency : Frequency; age_range : AgeRange }.

Record Demographics := { birth_year : Z; birth_month : Z }.

Record LifeExpectancy := { years : Q }.

Record Profile := {
  demographics : Demographics;
  life_expectancy : LifeExpectancy
}.

(** The two readings the code takes of [new Date()]; [getMonth] counts from 0. *)
Record Date := { getFullYear : Z; getMonth : Z }.

(** ** Calculation utilities *)

Module Calculations.

Definition multipliers : gmap string Q :=
  {[ "day" := 365%Q; "week" := 52%Q; "month" := 12%Q; "year" := 1%Q ]}.

Definition convertFrequencyToYearly (f : Frequency) : Js.number :=
  Js.mul (Js.Num (times f))
         (Js.or_number (Js.get multipliers (period f)) 1).

Definition getCurrentAge (now : Date) (profile : Profile) : Z :=
  let currentYear := getFullYear now in
  let currentMonth := getMonth now + 1 in
  let age := currentYear - birth_year (demographics profile) in
  if currentMonth <? birth_month (demographics profile) then age - 1 else age.

Definition getYearsRemaining (now : Date) (profile : Profile) : Q :=
  let currentAge := getCurrentAge now profile in
  Js.Math_max 0 (years (life_expectancy profile) - inject_Z currentAge)%Q.

(** The effective end age, shared by the remaining and the total count. *)
Definition activityEndAge (activity : Activity) (profile : Profile) : Q :=
  let lifeExpectancy := years (life_expectancy profile) in
  if flexible_end (age_range activity)
  then lifeExpectancy
  else Js.or_default (end_ (age_range activity)) lifeExpectancy.

Definition calculateRemainingOccurrences
    (now : Date) (activity : Activity) (profile : Profile) : Js.number :=
  let currentAge := inject_Z (getCurrentAge now profile) in
  let activityEndAge := activityEndAge activity profile in
  let activityStartAge :=
    Js.Math_max (Js.or_default (start (age_range activity)) 0) currentAge in
  if Qle_bool activityEndAge currentAge then Js.Num 0
  else
    let yearsRemaining := (activityEndAge - activityStartAge)%Q in
    let yearlyFrequency := convertFrequencyToYearly (frequency activity) in
    Js.floor (Js.mul (Js.Num yearsRemaining) yearlyFrequency).

Definition calculateTotalOccurrences
    (activity : Activity) (profile : Profile) : Js.number :=
  let activityEndAge := activityEndAge activity profile in
  let activityStartAge := Js.or_default (start (age_range activity)) 0 in
  let totalYears := Js.Math_max 0 (activityEndAge - activityStartAge)%Q in
  let yearlyFrequency := convertFrequencyToYearly (frequency activity) in
  Js.floor (Js.mul (Js.Num totalYears) yearlyFrequency).

Definition calculateCompletionPercentage
    (now : Date) (activity : Activity) (profile : Profile) : Js.number :=
  let total := calculateTotalOccurrences activity profile in
  let remaining := calculateRemainingOccurrences now activity profile in
  if Js.isZero total then Js.Num 100
  else
    let completed := Js.sub total remaining in
    Js.round (Js.mul (Js.div completed total) (Js.Num 100)).

End Calculations.

(** ** Legacy helpers of the data loader *)

Module DataLoader.

Definition multipliers : gmap string Q :=
  {[ "day" := 365%Q; "week" := 52%Q; "month" := 12%Q; "year" := 1%Q ]}.

Definition convertToYearlyFrequency (f : Frequency) : Js.number :=
  Js.mul (Js.Num (times f))
         (Js.or_number (Js.get multipliers (period f)) 1).

Definition getCurrentAge (now : Date) (profile : Profile) : Z :=
  let currentYear := getFullYear now in
  currentYear - birth_year (demographics profile).

Definition getYearsRemaining (now : Date) (profile : Profile) : Q :=
  let currentAge := getCurrentAge now profile in
  (years (life_expectancy profile) - inject_Z currentAge)%Q.

End DataLoader.

(** ** The card sequencer of the [Finitude] component *)

Module Finitude.

(** An activity in the legacy format the component displays. *)
Record LegacyActivity := {
  id : Z;
  name : string;
  icon : string;
  frequency : Js.number;
  description : string
}.

Record Card := { activity : LegacyActivity; count : Js.number }.

(** The fields of the stored profile that the component reads. *)
Record UserProfile := {
  life_expectancy_years : option Q;
  demographics_age : option Q
}.

Inductive View := main | settings | lifespan | activities_view.

(** The component state: the [useState] cells, and for each of the two
    [useRef] cells whether the interval it holds is live. *)
Record State := {
  currentCard : Z;
  isAutoPlaying : bool;
  progress : Z;
  touchStart : option Q;
  touchEnd : option Q;
  currentView : View;
  userProfile : option UserProfile;
  activities : list LegacyActivity;
  intervalRef : bool;
  progressRef : bool
}.

Definition initial : State := {|
  currentCard := 0;
  isAutoPlaying := true;
  progress := 0;
  touchStart := None;
  touchEnd := None;
  currentView := main;
  userProfile := None;
  activities := [];
  intervalRef := false;
  progressRef := false
|}.

Definition setCurrentCard (f : Z -> Z) (s : State) : State := {|
  currentCard := f (currentCard s);
  isAutoPlaying := isAutoPlaying s;
  progress := progress s;
  touchStart := touchStart s;
  touchEnd := touchEnd s;
  currentView := currentView s;
  userProfile := userProfile s;
  activities := activities s;
  intervalRef := intervalRef s;
  progressRef := progressRef s
|}.

Definition setIsAutoPlaying (b : bool) (s : State) : State := {|
  currentCard := currentCard s;
  isAutoPlaying := b;
  progress := progress s;
  touchStart := touchStart s;
  touchEnd := touchEnd s;
  currentView := currentView s;
  userProfile := userProfile s;
  activities := activities s;
  intervalRef := intervalRef s;
  progressRef := progressRef s
|}.

Definition setProgress (f : Z -> Z) (s : State) : State := {|
  currentCard := currentCard s;
  isAutoPlaying := isAutoPlaying s;
  progress := f (progress s);
  touchStart := touchStart s;
  touchEnd := touchEnd s;
  currentView := currentView s;
  userProfile := userProfile s;
  activities := activities s;
  intervalRef := intervalRef s;
  progressRef := progressRef s
|}.

Definition setTouchStart (v : option Q) (s : State) : State := {|
  currentCard := currentCard s;
  isAutoPlaying := isAutoPlaying s;
  progress := progress s;
  touchStart := v;
  touchEnd := touchEnd s;
  currentView := currentView s;
  userProfile := userProfile s;
  activities := activities s;
  intervalRef := intervalRef s;
  progressRef := progressRef s
|}.

Definition setTouchEnd (v : option Q) (s : State) : State := {|
  currentCard := currentCard s;
  isAutoPlaying := isAutoPlaying s;
  progress := progress s;
  touchStart := touchStart s;
  touchEnd := v;
  currentView := currentView s;
  userProfile := userProfile s;
  activities := activities s;
  intervalRef := intervalRef s;
  progressRef := progressRef s
|}.

Definition setCurrentView (v : View) (s : State) : State := {|
  currentCard := currentCard s;
  isAutoPlaying := isAutoPlaying s;
  progress := progress s;
  touchStart := touchStart s;
  touchEnd := touchEnd s;
  currentView := v;
  userProfile := userProfile s;
  activities := activities s;
  intervalRef := intervalRef s;
  progressRef := progressRef s
|}.

Definition setUserProfile (p : option UserProfile) (s : State) : State := {|
  currentCard := currentCard s;
  isAutoPlaying := isAutoPlaying s;
  progress := progress s;
  touchStart := touchStart s;
  touchEnd := touchEnd s;
  currentView := currentView s;
  userProfile := p;
  activities := activities s;
  intervalRef := intervalRef s;
  progressRef := progressRef s
|}.

Definition setActivities (l : list LegacyActivity) (s : State) : State := {|
  currentCard := currentCard s;
  isAutoPlaying := isAutoPlaying s;
  progress := progress s;
  touchStart := touchStart s;
  touchEnd := touchEnd s;
  currentView := currentView s;
  userProfile := userProfile s;
  activities := l;
  intervalRef := intervalRef s;
  progressRef := progressRef s
|}.

(** [setInterval] into both refs, or [clearInterval] on both. *)
Definition setIntervals (live : bool) (s : State) : State := {|
  currentCard := currentCard s;
  isAutoPlaying := isAutoPlaying s;
  progress := progress s;
  touchStart := touchStart s;
  touchEnd := touchEnd s;
  currentView := currentView s;
  userProfile := userProfile s;
  activities := activities s;
  intervalRef := live;
  progressRef := live
|}.

(** *** Values derived at each render *)

Definition lifeExpectancy (s : State) : Q :=
  Js.or_default (p ← userProfile s; life_expectancy_years p) (157 # 2).

Definition currentAge (s : State) : Q :=
  Js.or_default (p ← userProfile s; demographics_age p) 57.

Definition yearsRemaining (s : State) : Q :=
  (lifeExpectancy s - currentAge s)%Q.

Definition cardsWithCounts (s : State) : list Card :=
  map (fun a =>
         {| activity := a;
            count :=
              Js.floor (Js.mul (frequency a) (Js.Num (yearsRemaining s))) |})
      (activities s).

(** [cardsWithCounts.length] *)
Definition cardsLength (s : State) : Z :=
  Z.of_nat (length (cardsWithCounts s)).

(** *** Auto play *)

Definition startAutoPlay (s : State) : State :=
  setIntervals true (setProgress (fun _ => 0) (setIntervals false s)).

Definition stopAutoPlay (s : State) : State :=
  setProgress (fun _ => 0) (setIntervals false s).

(** Callback of the interval held by [progressRef]. *)
Definition progressTick (s : State) : State :=
  setProgress (fun prev => if 100 <=? prev then 0 else prev + 1) s.

(** Callback of the interval held by [intervalRef]. *)
Definition rotationTick (s : State) : State :=
  setProgress (fun _ => 0)
    (setCurrentCard (fun prev => Z.rem (prev + 1) (cardsLength s)) s).

(** Body of the effect that follows [isAutoPlaying], [currentCard] and the
    number of cards. *)
Definition autoPlayEffect (s : State) : State :=
  if isAutoPlaying s && (0 <? cardsLength s)
  then startAutoPlay s
  else stopAutoPlay s.

(** *** Navigation *)

Definition nextCard (s : State) : State :=
  if 0 <? cardsLength s
  then setProgress (fun _ => 0)
         (setCurrentCard (fun prev => Z.rem (prev + 1) (cardsLength s)) s)
  else s.

Definition prevCard (s : State) : State :=
  if 0 <? cardsLength s
  then setProgress (fun _ => 0)
         (setCurrentCard
            (fun prev => Z.rem (prev - 1 + cardsLength s) (cardsLength s)) s)
  else s.

Definition handleTouchStart (clientX : Q) (s : State) : State :=
  setTouchStart (Some clientX) (setTouchEnd None s).

Definition handleTouchMove (clientX : Q) (s : State) : State :=
  setTouchEnd (Some clientX) s.

Definition handleTouchEnd (s : State) : State :=
  if Js.not (touchStart s) || Js.not (touchEnd s) then s
  else
    let distance :=
      (Js.to_number (touchStart s) - Js.to_number (touchEnd s))%Q in
    let isLeftSwipe := negb (Qle_bool distance 50) in
    let isRightSwipe := negb (Qle_bool (-50) distance) in
    if isLeftSwipe then nextCard s
    else if isRightSwipe then prevCard s
    else s.

Definition handleCardClick (s : State) : State :=
  setIsAutoPlaying (negb (isAutoPlaying s)) s.

Definition handleSettingsClick (s : State) : State :=
  setIsAutoPlaying false (setCurrentView settings s).

Definition handleBackToMain (s : State) : State :=
  setIsAutoPlaying true (setCurrentView main s).

(** *** Events *)

Inductive Event :=
| ProgressTimer
| CardTimer
| NextClick
| PrevClick
| TouchStart (clientX : Q)
| TouchMove (clientX : Q)
| TouchEnd
| CardClick
| SettingsClick
| BackToMain
| ViewChange (v : View)
| ProfileChange (p : option UserProfile)
| ActivitiesChange (l : list LegacyActivity).

(** A timer callback runs only while its interval is live. *)
Definition handle (e : Event) (s : State) : State :=
  match e with
  | ProgressTimer => if progressRef s then progressTick s else s
  | CardTimer => if intervalRef s then rotationTick s else s
  | NextClick => nextCard s
  | PrevClick => prevCard s
  | TouchStart x => handleTouchStart x s
  | TouchMove x => handleTouchMove x s
  | TouchEnd => handleTouchEnd s
  | CardClick => handleCardClick s
  | SettingsClick => handleSettingsClick s
  | BackToMain => handleBackToMain s
  | ViewChange v => setCurrentView v s
  | ProfileChange p => setUserProfile p s
  | ActivitiesChange l => setActivities l s
  end.

(** The dependencies of the auto-play effect. *)
Definition depsChanged (s s' : State) : bool :=
  negb (Bool.eqb (isAutoPlaying s) (isAutoPlaying s')
        && (currentCard s =? currentCard s')
        && (cardsLength s =? cardsLength s')).

(** After a handler the component renders again; when a dependency changed,
    the clean-up of the effect runs, then its body. *)
Definition commit (s s' : State) : State :=
  if depsChanged s s' then autoPlayEffect (stopAutoPlay s') else s'.

Definition dispatch (e : Event) (s : State) : State :=
  commit s (handle e s).

Inductive reachable : State -> Prop :=
| reachable_initial : reachable initial
| reachable_dispatch e s : reachable s -> reachable (dispatch e s).

Definition run (es : list Event) (s : State) : State :=
  fold_left (fun st e => dispatch e st) es s.

End Finitude.

(** ** The remaining count as the specification words it

    The end age is the life expectancy when the end of the range is
    flexible or absent, and the stated end otherwise. *)

Module Stated.

Definition activityEndAge (activity : Activity) (profile : Profile) : Q :=
  match end_ (age_range activity) with
  | Some e => if flexible_end (age_range activity)
              then years (life_expectancy profile) else e
  | None => years (life_expectancy profile)
  end.

Definition remainingOccurrences
    (now : Date) (activity : Activity) (profile : Profile) : Js.number :=
  let currentAge := inject_Z (Calculations.getCurrentAge now profile) in
  let activityEndAge := activityEndAge activity profile in
  let activityStartAge :=
    Qmax (default 0%Q (start (age_range activity))) currentAge in
  if Qle_bool activityEndAge currentAge then Js.Num 0
  else
    Js.floor
      (Js.mul (Js.Num (activityEndAge - activityStartAge))
              (Calculations.convertFrequencyToYearly (frequency activity))).

End Stated.

(** ** Sample data *)

Module Sample.

Definition june2026 : Date := {| getFullYear := 2026; getMonth := 5 |}.

Definition mkProfile (y m : Z) (l : Q) : Profile :=
  {| demographics := {| birth_year := y; birth_month := m |};
     life_expectancy := {| years := l |} |}.

(** Aged 57 in June 2026, expected to reach 77. *)
Definition profile57 : Profile := mkProfile 1969 1 77.

(** Born in December: the birthday of 2026 is still ahead in June. *)
Definition profileDecember : Profile := mkProfile 1969 12 77.

(** Aged 86 in 2026, beyond the expectancy of 77. *)
Definition profile86 : Profile := mkProfile 1940 1 77.

Definition mkActivity (t : Q) (p : string) (s e : option Q) (flex : bool)
    : Activity :=
  {| frequency := {| times := t; period := p |};
     age_range := {| start := s; end_ := e; flexible_end := flex |} |}.

(** Once a year, with an end age of 0 written out. *)
Definition endsAtZero : Activity :=
  mkActivity 1 "year" (Some 0%Q) (Some 0%Q) false.

(** Monthly from the age of 80 on, for life. *)
Definition fromEighty : Activity :=
  mkActivity 1 "month" (Some 80%Q) None true.

(** Weekly between the ages of 50 and 70. *)
Definition fiftyToSeventy : Activity :=
  mkActivity 1 "week" (Some 50%Q) (Some 70%Q) false.

(** Three times per ["constructor"], for life. *)
Definition inheritedPeriod : Activity :=
  mkActivity 3 "constructor" None None true.

Definition legacy (n : Z) : Finitude.LegacyActivity :=
  {| Finitude.id := n; Finitude.name := "Sunsets"; Finitude.icon := "*";
     Finitude.frequency := Js.Num 12;
     Finitude.description := "Evening walks" |}.

(** The component showing three cards, the first one focused. *)
Definition threeCards : Finitude.State :=
  Finitude.dispatch
    (Finitude.ActivitiesChange [legacy 1; legacy 2; legacy 3])
    Finitude.initial.

End Sample.

(** ** Array indexing *)

Module JsArray.

(** [l[i]] for an integer [i]: an index outside the array reads
    [undefined]. *)
Definition at_ {A : Type} (l : list A) (i : Z) : option A :=
  if i <? 0 then None else l !! Z.to_nat i.

End JsArray.

(** ** The remaining exports of the data loader *)

Module Loader.

Record Display := { icon : string }.

Record Metadata := { is_active : option bool }.

(** An activity of the activities file, with the fields the loader reads. *)
Record RawActivity := {
  name : string;
  display : Display;
  frequency : Frequency;
  description : string;
  metadata : Metadata
}.

(** [v !== false] *)
Definition notFalse (v : option bool) : bool :=
  match v with
  | Some false => false
  | _ => true
  end.

(** The argument is [defaultActivities.activities], which may be missing. *)
Definition loadDefaultActivities
    (defaultActivities : option (list RawActivity)) : list RawActivity :=
  let allActivities := default [] defaultActivities in
  List.filter (fun activity => notFalse (is_active (metadata activity)))
    allActivities.

Definition convertActivitiesToLegacyFormat
    (activities : list RawActivity) : list Finitude.LegacyActivity :=
  imap (fun index activity =>
          {| Finitude.id := Z.of_nat index + 1;
             Finitude.name := name activity;
             Finitude.icon := icon (display activity);
             Finitude.frequency :=
               DataLoader.convertToYearlyFrequency (frequency activity);
             Finitude.description := description activity |})
       activities.

Record Quote := { quote_id : Z; quote : string; author : string }.

Definition loadFinitudeQuotes (finitudeQuotes : option (list Quote))
    : list Quote :=
  default [] finitudeQuotes.

(** [random] is the value of [Math.random()]; [None] is [null] for an empty
    list and [undefined] for an index outside the list. *)
Definition getRandomQuote
    (finitudeQuotes : option (list Quote)) (random : Q) : option Quote :=
  let quotes := loadFinitudeQuotes finitudeQuotes in
  if Z.of_nat (length quotes) =? 0 then None
  else
    let randomIndex :=
      Js.Math_floor (random * inject_Z (Z.of_nat (length quotes)))%Q in
    JsArray.at_ quotes randomIndex.

Record TimeRemaining := { amount : Z; unit_ : string; display_ : string }.

Record Breakdown := {
  frequency_ : string;
  timeRemaining : string;
  calculation : string;
  result : string
}.

(** [const totalCount] of [generateCalculationBreakdown]. *)
Definition totalCount (activity : RawActivity) (yearsRemaining : Q)
    : Js.number :=
  Js.floor
    (Js.mul (DataLoader.convertToYearlyFrequency (frequency activity))
            (Js.Num yearsRemaining)).

Section Rendering.

(** How a number reads inside a template literal, and what
    [toLocaleString] makes of one. *)
Variable numberToString : Q -> string.
Variable toLocaleString : Js.number -> string.

Definition formatFrequency (f : Frequency) : string :=
  let times := times f in
  let period := period f in
  if String.eqb period "day" then
    if Qeq_bool times 1 then "Daily"
    else numberToString times +:+ " times per day"
  else if String.eqb period "week" then
    if Qeq_bool times 1 then "Weekly"
    else if Qeq_bool times 7 then "Daily"
    else numberToString times +:+ " times per week"
  else if String.eqb period "month" then
    if Qeq_bool times 1 then "Monthly"
    else numberToString times +:+ " times per month"
  else if String.eqb period "year" then
    if Qeq_bool times 1 then "Annually"
    else if Qeq_bool times 12 then "Monthly"
    else if Qeq_bool times 52 then "Weekly"
    else if Qeq_bool times 365 then "Daily"
    else numberToString times +:+ " times per year"
  else numberToString times +:+ " times per " +:+ period.

Definition calculateTimeRemaining (yearsRemaining : Q) (f : Frequency)
    : TimeRemaining :=
  let period := period f in
  if String.eqb period "day" then
    let daysRemaining := Js.Math_floor (yearsRemaining * 365)%Q in
    {| amount := daysRemaining;
       unit_ := "days";
       display_ :=
         toLocaleString (Js.Num (inject_Z daysRemaining))
         +:+ " days remaining" |}
  else if String.eqb period "week" then
    let weeksRemaining := Js.Math_floor (yearsRemaining * 52)%Q in
    {| amount := weeksRemaining;
       unit_ := "weeks";
       display_ :=
         toLocaleString (Js.Num (inject_Z weeksRemaining))
         +:+ " weeks remaining" |}
  else if String.eqb period "month" then
    let monthsRemaining := Js.Math_floor (yearsRemaining * 12)%Q in
    {| amount := monthsRemaining;
       unit_ := "months";
       display_ :=
         toLocaleString (Js.Num (inject_Z monthsRemaining))
         +:+ " months remaining" |}
  else
    {| amount := Js.Math_floor yearsRemaining;
       unit_ := "years";
       display_ :=
         numberToString (inject_Z (Js.Math_floor yearsRemaining))
         +:+ " years remaining" |}.

Definition generateCalculationBreakdown
    (activity : RawActivity) (yearsRemaining : Q) : Breakdown :=
  let frequency := frequency activity in
  let timeRemaining := calculateTimeRemaining yearsRemaining frequency in
  let totalCount := totalCount activity yearsRemaining in
  {| frequency_ := formatFrequency frequency;
     timeRemaining := display_ timeRemaining;
     calculation :=
       numberToString (times frequency) +:+ " Ã— "
       +:+ toLocaleString (Js.Num (inject_Z (amount timeRemaining)))
       +:+ " = "
       +:+ toLocaleString totalCount;
     result := toLocaleString totalCount +:+ " opportunities left" |}.

End Rendering.

End Loader.

(** ** The editing handlers of the [Finitude] component *)

Module Editing.

Import Finitude.

(** The part of a profile that the age helpers read. *)
Definition ageProfile (birthYear birthMonth : Z) (lifeYears : Q) : Profile :=
  {| demographics :=
       {| birth_year := birthYear; birth_month := birthMonth |};
     life_expectancy := {| years := lifeYears |} |}.

(** The stored profile, with the fields the handlers write. *)
Record StoredProfile := {
  profile_name : string;
  age : option Q;
  birth_year : Z;
  birth_month : Z;
  years : Q;
  last_updated : string
}.

(** What the derived values of the component read of a profile. *)
Definition view (p : StoredProfile) : UserProfile :=
  {| life_expectancy_years := Some (years p);
     demographics_age := age p |}.

(** The profile as the age helpers take it. *)
Definition toProfile (p : StoredProfile) : Profile :=
  ageProfile (birth_year p) (birth_month p) (years p).

(** The component together with the profile in full, the activity under
    edit, and the last values handed to [saveUserProfile] and
    [saveUserActivities]. *)
Record Editor := {
  component : State;
  profile : option StoredProfile;
  editingActivity : option LegacyActivity;
  savedProfile : option StoredProfile;
  savedActivities : option (list LegacyActivity)
}.

(** [setUserProfile(updatedProfile); saveUserProfile(updatedProfile)] *)
Definition updateProfile (updatedProfile : StoredProfile) (e : Editor)
    : Editor :=
  {| component :=
       dispatch (ProfileChange (Some (view updatedProfile))) (component e);
     profile := Some updatedProfile;
     editingActivity := editingActivity e;
     savedProfile := Some updatedProfile;
     savedActivities := savedActivities e |}.

(** [now] is [new Date().toISOString()]. *)
Definition handleLifespanChange (now : string) (value : Q) (e : Editor)
    : Editor :=
  match profile e with
  | Some userProfile =>
      updateProfile
        {| profile_name := profile_name userProfile;
           age := age userProfile;
           birth_year := birth_year userProfile;
           birth_month := birth_month userProfile;
           years := value;
           last_updated := now |} e
  | None => e
  end.

Definition handleAgeChange (now : Date) (value : Z) (e : Editor) : Editor :=
  match profile e with
  | Some userProfile =>
      let currentYear := getFullYear now in
      let birthYear := currentYear - value in
      updateProfile
        {| profile_name := profile_name userProfile;
           age := Some (inject_Z value);
           birth_year := birthYear;
           birth_month := birth_month userProfile;
           years := years userProfile;
           last_updated := last_updated userProfile |} e
  | None => e
  end.

Definition handleNameChange (value : string) (e : Editor) : Editor :=
  match profile e with
  | Some userProfile =>
      updateProfile
        {| profile_name := value;
           age := age userProfile;
           birth_year := birth_year userProfile;
           birth_month := birth_month userProfile;
           years := years userProfile;
           last_updated := last_updated userProfile |} e
  | None => e
  end.

Definition setEditingActivity (a : option LegacyActivity) (e : Editor)
    : Editor :=
  {| component := component e;
     profile := profile e;
     editingActivity := a;
     savedProfile := savedProfile e;
     savedActivities := savedActivities e |}.

(** [setActivities(updatedActivities); saveUserActivities(updatedActivities)] *)
Definition updateActivities
    (updatedActivities : list LegacyActivity) (e : Editor) : Editor :=
  {| component := dispatch (ActivitiesChange updatedActivities) (component e);
     profile := profile e;
     editingActivity := editingActivity e;
     savedProfile := savedProfile e;
     savedActivities := Some updatedActivities |}.

Definition handleActivityEdit (activity : LegacyActivity) (e : Editor)
    : Editor :=
  setEditingActivity (Some activity) e.

Definition handleActivitySave (updatedActivity : LegacyActivity) (e : Editor)
    : Editor :=
  let updatedActivities :=
    map (fun act => if id act =? id updatedActivity
                    then updatedActivity else act)
        (activities (component e)) in
  setEditingActivity None (updateActivities updatedActivities e).

Definition handleActivityDelete (activityId : Z) (e : Editor) : Editor :=
  let updatedActivities :=
    List.filter (fun act => negb (id act =? activityId))
      (activities (component e)) in
  updateActivities updatedActivities e.

(** [now] is [Date.now()]. *)
Definition newActivity (now : Z) : LegacyActivity :=
  {| id := now;
     name := "New Activity";
     icon := "â­";
     frequency := Js.Num 1;
     description := "A new meaningful moment" |}.

Definition handleAddActivity (now : Z) (e : Editor) : Editor :=
  let updatedActivities := activities (component e) ++ [newActivity now] in
  setEditingActivity (Some (newActivity now))
    (updateActivities updatedActivities e).

(** The activities the component starts from, before they are shuffled:
    the stored ones when there are any, the converted defaults otherwise. *)
Definition activitiesToSet
    (userActivities : option (list LegacyActivity))
    (defaultActivities : option (list Loader.RawActivity))
    : list LegacyActivity :=
  match userActivities with
  | Some l =>
      if 0 <? Z.of_nat (length l) then l
      else Loader.convertActivitiesToLegacyFormat
             (Loader.loadDefaultActivities defaultActivities)
  | None =>
      Loader.convertActivitiesToLegacyFormat
        (Loader.loadDefaultActivities defaultActivities)
  end.

(** [[...activitiesToSet].sort(() => Math.random() - 0.5)]: the comparator
    answers at random, so the order of the result is anyone's guess; the
    copy holds the elements of the array, each as often as the array. *)
Definition shuffled (activitiesToSet shuffledActivities : list LegacyActivity)
    : Prop :=
  activitiesToSet ≡ₚ shuffledActivities.

(** The lists the mount effect may hand to [setActivities]. *)
Definition mountActivities
    (userActivities : option (list LegacyActivity))
    (defaultActivities : option (list Loader.RawActivity))
    (shuffledActivities : list LegacyActivity) : Prop :=
  shuffled (activitiesToSet userActivities defaultActivities)
           shuffledActivities.

(** [cardsWithCounts[currentCard]] *)
Definition currentActivity (s : State) : option Card :=
  JsArray.at_ (cardsWithCounts s) (currentCard s).

(** The focus is on a card, or at 0 while there is none. *)
Definition focusValid (s : State) : Prop :=
  0 <= currentCard s
  /\ (currentCard s < cardsLength s
      \/ cardsLength s = 0 /\ currentCard s = 0).

(** Both intervals are live exactly while auto play is on and there is a
    card to show. *)
Definition timersMatch (s : State) : Prop :=
  intervalRef s = (isAutoPlaying s && (0 <? cardsLength s))
  /\ progressRef s = (isAutoPlaying s && (0 <? cardsLength s)).

End Editing.

(** ** Sample data for the editing handlers *)

Module SampleEditing.

Definition stored : Editing.StoredProfile :=
  {| Editing.profile_name := "Ada";
     Editing.age := Some 57%Q;
     Editing.birth_year := 1969;
     Editing.birth_month := 12;
     Editing.years := 77%Q;
     Editing.last_updated := "2026-01-01T00:00:00.000Z" |}.

(** Three cards, the first one focused, and a stored profile. *)
Definition editor : Editing.Editor :=
  {| Editing.component :=
       Finitude.dispatch
         (Finitude.ProfileChange (Some (Editing.view stored)))
         Sample.threeCards;
     Editing.profile := Some stored;
     Editing.editingActivity := None;
     Editing.savedProfile := None;
     Editing.savedActivities := None |}.

(** The same component before any profile has been loaded. *)
Definition editorWithoutProfile : Editing.Editor :=
  {| Editing.component := Sample.threeCards;
     Editing.profile := None;
     Editing.editingActivity := None;
     Editing.savedProfile := None;
     Editing.savedActivities := None |}.

(** The same editor with the focus moved back onto the last card. *)
Definition editorOnLastCard : Editing.Editor :=
  {| Editing.component :=
       Finitude.run [Finitude.PrevClick] (Editing.component editor);
     Editing.profile := Some stored;
     Editing.editingActivity := None;
     Editing.savedProfile := None;
     Editing.savedActivities := None |}.

End SampleEditing.

(** * Properties *)

(** ** The JavaScript operators *)

Section JsFacts.

Local Open Scope Q_scope.

(** With a default of 0 the operator [||] only normalises the zero. *)
Lemma or_default_zero (v : option Q) :
  Js.or_default v 0 == default 0 v.
Proof.
  destruct v as [q|]; simpl; [|reflexivity].
  destruct (Qeq_bool q 0) eqn:E; [|reflexivity].
  apply Qeq_bool_iff in E. symmetry. exact E.
Qed.

Lemma Qle_bool_false (a b : Q) : Qle_bool a b = false -> b < a.
Proof.
  intros H. apply Qnot_le_lt. intros Hle.
  apply Qle_bool_iff in Hle. congruence.
Qed.

Lemma Math_max_Qmax (a b : Q) : Js.Math_max a b == Qmax a b.
Proof.
  unfold Js.Math_max.
  destruct (Qle_bool a b) eqn:E.
  - apply Qle_bool_iff in E. symmetry. apply Q.max_r. exact E.
  - apply Qle_bool_false in E. symmetry. apply Q.max_l.
    apply Qlt_le_weak. exact E.
Qed.

Lemma Math_max_cases (a b : Q) :
  (a <= b /\ Js.Math_max a b = b) \/ (b < a /\ Js.Math_max a b = a).
Proof.
  unfold Js.Math_max.
  destruct (Qle_bool a b) eqn:E.
  - left. split; [apply Qle_bool_iff; exact E | reflexivity].
  - right. split; [apply Qle_bool_false; exact E | reflexivity].
Qed.

Lemma Math_floor_mono (x y : Q) :
  x <= y -> (Js.Math_floor x <= Js.Math_floor y)%Z.
Proof. apply Qfloor_resp_le. Qed.

Lemma Math_floor_nonneg (x : Q) : 0 <= x -> (0 <= Js.Math_floor x)%Z.
Proof.
  intros H. change 0%Z with (Qfloor 0). apply Qfloor_resp_le. exact H.
Qed.

Lemma Math_floor_nonpos (x : Q) : x <= 0 -> (Js.Math_floor x <= 0)%Z.
Proof.
  intros H. change 0%Z with (Qfloor 0). apply Qfloor_resp_le. exact H.
Qed.

Lemma Math_floor_zero (x : Q) : x == 0 -> Js.Math_floor x = 0%Z.
Proof.
  intros H. unfold Js.Math_floor. rewrite H. reflexivity.
Qed.

Lemma Math_round_bounds (x : Q) (lo hi : Z) :
  inject_Z lo <= x -> x <= inject_Z hi ->
  (lo <= Js.Math_round x <= hi)%Z.
Proof.
  intros Hlo Hhi. unfold Js.Math_round. split.
  - rewrite <- (Qfloor_Z lo). apply Qfloor_resp_le. lra.
  - assert (H : (Qfloor (x + (1 # 2)) < hi + 1)%Z); [|lia].
    rewrite Zlt_Qlt.
    apply Qle_lt_trans with (x + (1 # 2)); [apply Qfloor_le|].
    rewrite inject_Z_plus. change (inject_Z 1) with 1. lra.
Qed.

Lemma floor_le (x y : Q) :
  x <= y -> Js.le (Js.floor (Js.Num x)) (Js.floor (Js.Num y)).
Proof.
  intros H. cbn [Js.floor Js.le]. rewrite <- Zle_Qle.
  apply Qfloor_resp_le. exact H.
Qed.

Lemma floor_nonneg (x : Q) :
  0 <= x -> Js.le (Js.Num 0) (Js.floor (Js.Num x)).
Proof.
  intros H. cbn [Js.floor Js.le]. change 0 with (inject_Z 0).
  rewrite <- Zle_Qle. apply Math_floor_nonneg. exact H.
Qed.


Lemma floor_comp (x y : Q) :
  x == y -> Js.floor (Js.Num x) = Js.floor (Js.Num y).
Proof.
  intros H. cbn [Js.floor]. unfold Js.Math_floor.
  rewrite (Qfloor_comp x y H). reflexivity.
Qed.

End JsFacts.

(** ** Frequency normaliser *)

Section FrequencyFacts.

Local Open Scope Q_scope.

Lemma multipliers_unknown (p : string) :
  p <> "day"%string -> p <> "week"%string ->
  p <> "month"%string -> p <> "year"%string ->
  Calculations.multipliers !! p = None.
Proof.
  intros Hd Hw Hm Hy. unfold Calculations.multipliers.
  rewrite !lookup_insert_ne by congruence.
  apply lookup_singleton_ne. congruence.
Qed.

Lemma multipliers_shared : DataLoader.multipliers = Calculations.multipliers.
Proof. reflexivity. Qed.

(** None of the four periods of the table is a name of [Object.prototype]. *)
Lemma multipliers_inherited (p : string) :
  p ∈ Js.objectPrototype -> Calculations.multipliers !! p = None.
Proof.
  intros Hp.
  apply multipliers_unknown; intros ->;
    apply list_elem_of_In in Hp; cbn in Hp; intuition discriminate.
Qed.

Lemma get_inherited (p : string) :
  p ∈ Js.objectPrototype ->
  Js.get Calculations.multipliers p = Js.Inherited.
Proof.
  intros Hp. unfold Js.get.
  rewrite (multipliers_inherited p Hp).
  rewrite bool_decide_eq_true_2 by exact Hp. reflexivity.
Qed.

Lemma get_undefined (p : string) :
  p <> "day"%string -> p <> "week"%string ->
  p <> "month"%string -> p <> "year"%string ->
  p ∉ Js.objectPrototype ->
  Js.get Calculations.multipliers p = Js.Undefined.
Proof.
  intros Hd Hw Hm Hy Hp. unfold Js.get.
  rewrite (multipliers_unknown p Hd Hw Hm Hy).
  rewrite bool_decide_eq_false_2 by exact Hp. reflexivity.
Qed.

(** The yearly rate, period by period: the two copies of the conversion
    agree; the four periods of the table have their multiplier; a period
    that names nothing at all falls back to 1; and a period that names a
    member of [Object.prototype] gives [NaN]. *)
Lemma yearly_rate_by_period (t : Q) (p : string) :
  let f := {| times := t; period := p |} in
  DataLoader.convertToYearlyFrequency f
    = Calculations.convertFrequencyToYearly f
  /\ (p = "day"%string ->
      Calculations.convertFrequencyToYearly f = Js.Num (t * 365))
  /\ (p = "week"%string ->
      Calculations.convertFrequencyToYearly f = Js.Num (t * 52))
  /\ (p = "month"%string ->
      Calculations.convertFrequencyToYearly f = Js.Num (t * 12))
  /\ (p = "year"%string ->
      Calculations.convertFrequencyToYearly f = Js.Num (t * 1))
  /\ (p <> "day"%string -> p <> "week"%string ->
      p <> "month"%string -> p <> "year"%string ->
      p ∉ Js.objectPrototype ->
      Calculations.convertFrequencyToYearly f = Js.Num (t * 1))
  /\ (p ∈ Js.objectPrototype ->
      Calculations.convertFrequencyToYearly f = Js.NaN).
Proof.
  cbv zeta.
  unfold DataLoader.convertToYearlyFrequency,
    Calculations.convertFrequencyToYearly.
  rewrite multipliers_shared. cbn [times period].
  repeat apply conj; try (intros ->; reflexivity).
  - reflexivity.
  - intros Hd Hw Hm Hy Hp.
    rewrite (get_undefined p Hd Hw Hm Hy Hp). reflexivity.
  - intros Hp. rewrite (get_inherited p Hp). reflexivity.
Qed.

(** The rate is [NaN] for an inherited name, and [times] multiplied by a
    positive whole number for every other period. *)
Lemma yearly_rate_cases (f : Frequency) :
  (period f ∈ Js.objectPrototype
   /\ Calculations.convertFrequencyToYearly f = Js.NaN)
  \/ ((period f ∉ Js.objectPrototype)
      /\ (exists m : Z,
             (0 < m)%Z
             /\ Calculations.convertFrequencyToYearly f
                = Js.Num (times f * inject_Z m))).
Proof.
  destruct f as [t p]. cbn [period times].
  pose proof (yearly_rate_by_period t p) as H. cbv zeta in H.
  destruct H as (_ & Hd & Hw & Hm & Hy & Hother & Hproto).
  destruct (decide (p ∈ Js.objectPrototype)) as [Hin | Hout];
    [left; split; [exact Hin | exact (Hproto Hin)]|].
  right. split; [exact Hout|].
  destruct (String.eqb_spec p "day") as [Ed | Nd];
    [exists 365%Z; split; [lia | exact (Hd Ed)]|].
  destruct (String.eqb_spec p "week") as [Ew | Nw];
    [exists 52%Z; split; [lia | exact (Hw Ew)]|].
  destruct (String.eqb_spec p "month") as [Em | Nm];
    [exists 12%Z; split; [lia | exact (Hm Em)]|].
  destruct (String.eqb_spec p "year") as [Ey | Ny];
    [exists 1%Z; split; [lia | exact (Hy Ey)]|].
  exists 1%Z. split; [lia | exact (Hother Nd Nw Nm Ny Hout)].
Qed.

(** C6. The period ["constructor"] is none of the four periods of the
    table, yet the table is not silent about it: like every object it
    inherits a member of that name.  The multiplier read is that member; it
    is truthy, so that the default 1 does not replace it, and its product
    with [times] is [NaN], in the calculation utilities and in the data
    loader alike.  A period the table knows nothing of, such as
    ["fortnight"], is multiplied by 1. *)
Theorem yearly_rate_of_inherited_period :
  Js.get Calculations.multipliers "constructor" = Js.Inherited
  /\ Calculations.convertFrequencyToYearly
       {| times := 3; period := "constructor" |} = Js.NaN
  /\ DataLoader.convertToYearlyFrequency
       {| times := 3; period := "constructor" |} = Js.NaN
  /\ Calculations.convertFrequencyToYearly
       {| times := 3; period := "fortnight" |} = Js.Num (3 * 1)
  /\ Calculations.convertFrequencyToYearly
       {| times := 3; period := "week" |} = Js.Num (3 * 52).
Proof. repeat split. Qed.

End FrequencyFacts.

(** ** Age resolver *)

Section AgeFacts.

Local Open Scope Q_scope.

(** The calculation utilities take one year off until the birthday month. *)
Lemma getCurrentAge_birthday (now : Date) (profile : Profile) :
  let span := (getFullYear now - birth_year (demographics profile))%Z in
  let month := (getMonth now + 1)%Z in
  ((month < birth_month (demographics profile))%Z ->
   Calculations.getCurrentAge now profile = (span - 1)%Z)
  /\ ((birth_month (demographics profile) <= month)%Z ->
      Calculations.getCurrentAge now profile = span).
Proof.
  cbv zeta. unfold Calculations.getCurrentAge.
  destruct (Z.ltb_spec (getMonth now + 1)
              (birth_month (demographics profile))); split; intros; lia.
Qed.

(** C5. The [getCurrentAge] of the data loader does not look at the month:
    for a person born in December 1969 it answers 57 in June 2026, where
    the birthday of the year is still ahead and the calculation utilities
    answer 56. *)
Theorem dataLoader_getCurrentAge_ignores_month :
  (getMonth Sample.june2026 + 1
     < birth_month (demographics Sample.profileDecember))%Z
  /\ DataLoader.getCurrentAge Sample.june2026 Sample.profileDecember = 57%Z
  /\ Calculations.getCurrentAge Sample.june2026 Sample.profileDecember
     = 56%Z.
Proof. repeat split. Qed.

(** The calculation utilities clamp the remaining years at 0. *)
Lemma getYearsRemaining_clamped (now : Date) (profile : Profile) :
  Calculations.getYearsRemaining now profile
    == Qmax 0 (years (life_expectancy profile)
               - inject_Z (Calculations.getCurrentAge now profile))
  /\ 0 <= Calculations.getYearsRemaining now profile.
Proof.
  unfold Calculations.getYearsRemaining. split.
  - apply Math_max_Qmax.
  - rewrite Math_max_Qmax. apply Q.le_max_l.
Qed.

(** C4. The [getYearsRemaining] of the data loader returns the bare
    difference: for a person aged 86 with a life expectancy of 77 it
    answers -9, where the calculation utilities answer 0. *)
Theorem dataLoader_getYearsRemaining_negative :
  DataLoader.getYearsRemaining Sample.june2026 Sample.profile86 == -9
  /\ DataLoader.getYearsRemaining Sample.june2026 Sample.profile86 < 0
  /\ Calculations.getYearsRemaining Sample.june2026 Sample.profile86 == 0.
Proof. repeat split. Qed.

End AgeFacts.

(** ** Occurrence calculator *)

Section OccurrenceClaims.

Local Open Scope Q_scope.

(** C1. An activity done once a year whose age range is written with an
    end age of 0 and no flexible end, for a person aged 57 who expects to
    reach 77: the code reads the end age 0 as a missing one, takes the life
    expectancy for the end and returns 20, where the formula of the
    specification, whose end age 0 lies behind the current age, gives 0. *)
Theorem remaining_counts_past_a_zero_end :
  end_ (age_range Sample.endsAtZero) = Some 0
  /\ flexible_end (age_range Sample.endsAtZero) = false
  /\ Calculations.getCurrentAge Sample.june2026 Sample.profile57 = 57%Z
  /\ Calculations.activityEndAge Sample.endsAtZero Sample.profile57 = 77
  /\ Stated.activityEndAge Sample.endsAtZero Sample.profile57 = 0
  /\ Calculations.calculateRemainingOccurrences
       Sample.june2026 Sample.endsAtZero Sample.profile57 = Js.Num 20
  /\ Stated.remainingOccurrences
       Sample.june2026 Sample.endsAtZero Sample.profile57 = Js.Num 0.
Proof. repeat split. Qed.

(** C2. An activity that starts at 80 and runs for life, for a person aged
    57 who expects to reach 77: the remaining count is -36, a negative
    number, while the lifetime total, which clamps the span of years at 0,
    is 0. *)
Theorem remaining_negative_for_late_start :
  Calculations.calculateRemainingOccurrences
    Sample.june2026 Sample.fromEighty Sample.profile57 = Js.Num (-36)
  /\ Calculations.calculateTotalOccurrences
       Sample.fromEighty Sample.profile57 = Js.Num 0.
Proof. split; reflexivity. Qed.

(** The remaining count is not negative once the rate is not negative and
    the activity starts no later than it ends. *)
Lemma calculateRemainingOccurrences_nonneg
    (now : Date) (activity : Activity) (profile : Profile) :
  Js.le (Js.Num 0)
        (Calculations.convertFrequencyToYearly (frequency activity)) ->
  default 0 (start (age_range activity))
    <= Calculations.activityEndAge activity profile ->
  Js.le (Js.Num 0)
        (Calculations.calculateRemainingOccurrences now activity profile).
Proof.
  intros Hrate Hstart.
  unfold Calculations.calculateRemainingOccurrences. cbv zeta.
  destruct (Calculations.convertFrequencyToYearly (frequency activity))
    as [rate|]; [|contradiction].
  cbn [Js.le] in Hrate.
  set (E := Calculations.activityEndAge activity profile) in *.
  set (age := inject_Z (Calculations.getCurrentAge now profile)).
  destruct (Qle_bool E age) eqn:HE; [apply Qle_refl|].
  apply Qle_bool_false in HE.
  apply floor_nonneg.
  pose proof (or_default_zero (start (age_range activity))) as H0.
  destruct (Math_max_cases
              (Js.or_default (start (age_range activity)) 0) age)
    as [[H ->] | [H ->]]; nra.
Qed.

(** C10. When the yearly rate of the activity is not negative, the
    remaining count is at most the lifetime total, so the completed count
    [total - remaining] is not negative. *)
Theorem remaining_le_total
    (now : Date) (activity : Activity) (profile : Profile) :
  Js.le (Js.Num 0)
        (Calculations.convertFrequencyToYearly (frequency activity)) ->
  Js.le (Calculations.calculateRemainingOccurrences now activity profile)
        (Calculations.calculateTotalOccurrences activity profile)
  /\ Js.le (Js.Num 0)
       (Js.sub (Calculations.calculateTotalOccurrences activity profile)
          (Calculations.calculateRemainingOccurrences now activity profile)).
Proof.
  intros Hrate.
  unfold Calculations.calculateRemainingOccurrences,
    Calculations.calculateTotalOccurrences. cbv zeta.
  destruct (Calculations.convertFrequencyToYearly (frequency activity))
    as [rate|]; [|contradiction].
  cbn [Js.le] in Hrate.
  set (E := Calculations.activityEndAge activity profile).
  set (S0 := Js.or_default (start (age_range activity)) 0).
  set (age := inject_Z (Calculations.getCurrentAge now profile)).
  assert (Hspan : 0 <= Js.Math_max 0 (E - S0)).
  { destruct (Math_max_cases 0 (E - S0)) as [[H ->] | [H ->]]; lra. }
  cut (Js.le (if Qle_bool E age then Js.Num 0
              else Js.floor (Js.mul (Js.Num (E - Js.Math_max S0 age))
                                    (Js.Num rate)))
             (Js.floor (Js.mul (Js.Num (Js.Math_max 0 (E - S0)))
                               (Js.Num rate)))).
  { destruct (Qle_bool E age); cbn [Js.mul Js.floor Js.le Js.sub];
      intros Hle; split; lra. }
  destruct (Qle_bool E age) eqn:HE.
  - apply floor_nonneg. nra.
  - apply Qle_bool_false in HE. apply floor_le.
    assert (Hle : E - Js.Math_max S0 age <= Js.Math_max 0 (E - S0)).
    { destruct (Math_max_cases 0 (E - S0)) as [[H1 ->] | [H1 ->]];
      destruct (Math_max_cases S0 age) as [[H2 ->] | [H2 ->]]; lra. }
    nra.
Qed.

Lemma remaining_le_total_witness :
  Js.le (Calculations.calculateRemainingOccurrences
           Sample.june2026 Sample.fiftyToSeventy Sample.profile57)
        (Calculations.calculateTotalOccurrences
           Sample.fiftyToSeventy Sample.profile57).
Proof.
  refine (proj1 (remaining_le_total
                   Sample.june2026 Sample.fiftyToSeventy Sample.profile57
                   _)).
  vm_compute. discriminate.
Defined.

End OccurrenceClaims.

Section CompletionClaims.

Local Open Scope Q_scope.

(** The three shapes the pair of counts can take when the rate is a
    number. *)
Lemma remaining_total_cases
    (now : Date) (activity : Activity) (profile : Profile) :
  Calculations.convertFrequencyToYearly (frequency activity) <> Js.NaN ->
  exists remaining total : Z,
    Calculations.calculateRemainingOccurrences now activity profile
    = Js.Num (inject_Z remaining)
    /\ Calculations.calculateTotalOccurrences activity profile
       = Js.Num (inject_Z total)
    /\ (total = 0
        \/ (0 < total /\ 0 <= remaining <= total)
        \/ (total < 0 /\ total <= remaining <= 0))%Z.
Proof.
  intros Hnum.
  unfold Calculations.calculateRemainingOccurrences,
    Calculations.calculateTotalOccurrences.
  cbv zeta.
  destruct (Calculations.convertFrequencyToYearly (frequency activity))
    as [rate|]; [|contradiction].
  set (age := inject_Z (Calculations.getCurrentAge now profile)).
  set (E := Calculations.activityEndAge activity profile).
  set (S0 := Js.or_default (start (age_range activity)) 0).
  cbn [Js.mul Js.floor].
  destruct (Qle_bool E age) eqn:HE.
  - exists 0%Z, (Js.Math_floor (Js.Math_max 0 (E - S0) * rate)).
    split; [reflexivity|]. split; [reflexivity|]. lia.
  - exists (Js.Math_floor ((E - Js.Math_max S0 age) * rate)),
           (Js.Math_floor (Js.Math_max 0 (E - S0) * rate)).
    split; [reflexivity|]. split; [reflexivity|].
    apply Qle_bool_false in HE.
    destruct (Math_max_cases 0 (E - S0)) as [[Hspan ->] | [Hspan ->]].
    + assert (Hrem : 0 <= E - Js.Math_max S0 age <= E - S0).
      { destruct (Math_max_cases S0 age) as [[H ->] | [H ->]]; lra. }
      set (spanR := E - Js.Math_max S0 age) in *.
      set (spanT := E - S0) in *.
      destruct (Qlt_le_dec rate 0) as [Hneg | Hpos].
      * assert (H1 : spanT * rate <= spanR * rate) by nra.
        assert (H2 : spanR * rate <= 0) by nra.
        apply Math_floor_mono in H1. apply Math_floor_nonpos in H2. lia.
      * assert (H1 : spanR * rate <= spanT * rate) by nra.
        assert (H2 : 0 <= spanR * rate) by nra.
        apply Math_floor_mono in H1. apply Math_floor_nonneg in H2. lia.
    + left. apply Math_floor_zero. ring.
Qed.

Lemma ratio_percent_bounds (c t : Z) :
  (0 < t)%Z -> (0 <= c <= t)%Z ->
  0 <= inject_Z c / inject_Z t * 100 <= 100.
Proof.
  intros Ht [Hc0 Hct].
  assert (HtQ : 0 < inject_Z t).
  { change 0 with (inject_Z 0). rewrite <- Zlt_Qlt. exact Ht. }
  assert (Hlo : 0 <= inject_Z c / inject_Z t).
  { apply Qle_shift_div_l; [exact HtQ|].
    rewrite Qmult_0_l. change 0 with (inject_Z 0).
    rewrite <- Zle_Qle. exact Hc0. }
  assert (Hhi : inject_Z c / inject_Z t <= 1).
  { apply Qle_shift_div_r; [exact HtQ|].
    rewrite Qmult_1_l. rewrite <- Zle_Qle. exact Hct. }
  split; lra.
Qed.

Lemma ratio_opp (c t : Z) :
  t <> 0%Z ->
  inject_Z c / inject_Z t == inject_Z (- c) / inject_Z (- t).
Proof.
  intros Ht.
  assert (HtQ : ~ inject_Z t == 0).
  { change 0 with (inject_Z 0). rewrite inject_Z_injective. exact Ht. }
  rewrite !inject_Z_opp. field. exact HtQ.
Qed.

(** As long as the yearly rate is a number, the percentage is a whole
    number between 0 and 100, for a negative rate and an inverted range
    too. *)
Lemma calculateCompletionPercentage_range
    (now : Date) (activity : Activity) (profile : Profile) :
  Calculations.convertFrequencyToYearly (frequency activity) <> Js.NaN ->
  exists percentage : Z,
    Calculations.calculateCompletionPercentage now activity profile
    = Js.Num (inject_Z percentage)
    /\ (0 <= percentage <= 100)%Z.
Proof.
  intros Hnum.
  destruct (remaining_total_cases now activity profile Hnum)
    as (R & T & HR & HT & Hcases).
  unfold Calculations.calculateCompletionPercentage. cbv zeta.
  rewrite HR, HT. cbn [Js.isZero Js.sub Js.div].
  destruct (Qeq_bool (inject_Z T) 0) eqn:Hz.
  - exists 100%Z. split; [reflexivity | lia].
  - cbn [Js.mul Js.round]. eexists. split; [reflexivity|].
    assert (HTne : T <> 0%Z) by (intros ->; discriminate Hz).
    assert (Hx : 0 <= (inject_Z T - inject_Z R) / inject_Z T * 100 <= 100).
    { assert (Hsub : inject_Z T - inject_Z R == inject_Z (T - R)).
      { unfold Z.sub. rewrite inject_Z_plus, inject_Z_opp. reflexivity. }
      rewrite Hsub.
      destruct Hcases as [Hzero | [[Hpos Hr] | [Hneg Hr]]].
      - contradiction.
      - apply ratio_percent_bounds; lia.
      - rewrite ratio_opp by exact HTne.
        apply ratio_percent_bounds; lia. }
    apply Math_round_bounds; [change (inject_Z 0) with 0
                             | change (inject_Z 100) with 100];
      apply Hx.
Qed.

(** C3. An activity done 3 times per ["constructor"], for life, for a
    person aged 57 who expects to reach 77: the yearly rate is [NaN], and so
    are the lifetime total and the remaining count.  The total is not 0, so
    the percentage is computed from them: it is [NaN], of which neither
    [0 <= percentage] nor [percentage <= 100] holds.  This is the defect of
    the conversion shown for C6, seen from [calculateCompletionPercentage]. *)
Theorem completion_of_inherited_period :
  let total :=
    Calculations.calculateTotalOccurrences
      Sample.inheritedPeriod Sample.profile57 in
  let remaining :=
    Calculations.calculateRemainingOccurrences
      Sample.june2026 Sample.inheritedPeriod Sample.profile57 in
  let percentage :=
    Calculations.calculateCompletionPercentage
      Sample.june2026 Sample.inheritedPeriod Sample.profile57 in
  total = Js.NaN
  /\ remaining = Js.NaN
  /\ Js.isZero total = false
  /\ percentage = Js.NaN
  /\ ~ Js.le (Js.Num 0) percentage
  /\ ~ Js.le percentage (Js.Num 100).
Proof. cbv zeta. repeat split; intros H; exact H. Qed.

End CompletionClaims.

(** ** Card sequencer *)

Section SequencerFacts.

Import Finitude.

Lemma cardsLength_activities (s : State) :
  cardsLength s = Z.of_nat (length (activities s)).
Proof.
  unfold cardsLength, cardsWithCounts. rewrite length_map. reflexivity.
Qed.

Lemma cardsLength_same (s s' : State) :
  activities s' = activities s -> cardsLength s' = cardsLength s.
Proof. intros H. rewrite !cardsLength_activities, H. reflexivity. Qed.

Lemma nextCard_activities (s : State) :
  activities (nextCard s) = activities s.
Proof. unfold nextCard. destruct (0 <? cardsLength s); reflexivity. Qed.

Lemma prevCard_activities (s : State) :
  activities (prevCard s) = activities s.
Proof. unfold prevCard. destruct (0 <? cardsLength s); reflexivity. Qed.

Lemma nextCard_currentCard (s : State) :
  0 < cardsLength s -> 0 <= currentCard s ->
  currentCard (nextCard s) = (currentCard s + 1) mod cardsLength s.
Proof.
  intros HN Hc. unfold nextCard.
  destruct (Z.ltb_spec 0 (cardsLength s)); [|lia].
  cbn [currentCard setProgress setCurrentCard].
  apply Z.rem_mod_nonneg; lia.
Qed.

Lemma prevCard_currentCard (s : State) :
  0 < cardsLength s -> 0 <= currentCard s ->
  currentCard (prevCard s) = (currentCard s - 1) mod cardsLength s.
Proof.
  intros HN Hc. unfold prevCard.
  destruct (Z.ltb_spec 0 (cardsLength s)); [|lia].
  cbn [currentCard setProgress setCurrentCard].
  rewrite Z.rem_mod_nonneg by lia.
  replace (currentCard s - 1 + cardsLength s)
    with (currentCard s - 1 + 1 * cardsLength s) by lia.
  apply Z_mod_plus_full.
Qed.

(** Where the focus is after [k] steps forwards. *)
Lemma iter_nextCard (s : State) (k : nat) :
  0 < cardsLength s -> 0 <= currentCard s < cardsLength s ->
  activities (Nat.iter k nextCard s) = activities s
  /\ currentCard (Nat.iter k nextCard s)
     = (currentCard s + Z.of_nat k) mod cardsLength s.
Proof.
  intros HN Hc. induction k as [|k [Hact Hcur]].
  - split; [reflexivity|]. simpl. rewrite Z.add_0_r, Z.mod_small; lia.
  - rewrite Nat.iter_succ.
    set (sk := Nat.iter k nextCard s) in *.
    pose proof (cardsLength_same s sk Hact) as HL.
    split; [rewrite nextCard_activities; exact Hact|].
    assert (Hsk : 0 <= currentCard sk < cardsLength s).
    { rewrite Hcur. apply Z.mod_pos_bound. lia. }
    rewrite nextCard_currentCard, HL by lia.
    rewrite Hcur, Zplus_mod_idemp_l. f_equal. lia.
Qed.

(** Where the focus is after [k] steps backwards. *)
Lemma iter_prevCard (s : State) (k : nat) :
  0 < cardsLength s -> 0 <= currentCard s < cardsLength s ->
  activities (Nat.iter k prevCard s) = activities s
  /\ currentCard (Nat.iter k prevCard s)
     = (currentCard s - Z.of_nat k) mod cardsLength s.
Proof.
  intros HN Hc. induction k as [|k [Hact Hcur]].
  - split; [reflexivity|]. simpl. rewrite Z.sub_0_r, Z.mod_small; lia.
  - rewrite Nat.iter_succ.
    set (sk := Nat.iter k prevCard s) in *.
    pose proof (cardsLength_same s sk Hact) as HL.
    split; [rewrite prevCard_activities; exact Hact|].
    assert (Hsk : 0 <= currentCard sk < cardsLength s).
    { rewrite Hcur. apply Z.mod_pos_bound. lia. }
    rewrite prevCard_currentCard, HL by lia.
    rewrite Hcur, Zminus_mod_idemp_l. f_equal. lia.
Qed.

End SequencerFacts.

Section SequencerClaims.

Import Finitude.

(** C7. On a non-empty sequence of [N] cards, from any focus index [i]
    within [0, N-1]: [nextCard] moves the focus to [(i + 1) mod N] and
    [prevCard] to [(i - 1) mod N], so that the last card is followed by the
    first and the first preceded by the last; [k] steps lead to
    [(i + k) mod N] and [(i - k) mod N].  Hence [nextCard] applied [N] times
    returns the focus to where it started, and so does [prevCard], while
    no smaller positive number of steps does; and after any number of
    steps in either direction the focus is still within [0, N-1]. *)
Theorem navigation_is_cyclic (s : State) :
  let N := cardsLength s in
  0 < N -> 0 <= currentCard s < N ->
  currentCard (nextCard s) = (currentCard s + 1) mod N
  /\ currentCard (prevCard s) = (currentCard s - 1) mod N
  /\ (forall k : nat,
         currentCard (Nat.iter k nextCard s)
         = (currentCard s + Z.of_nat k) mod N
         /\ currentCard (Nat.iter k prevCard s)
            = (currentCard s - Z.of_nat k) mod N)
  /\ (forall k : nat,
         0 < Z.of_nat k < N ->
         currentCard (Nat.iter k nextCard s) <> currentCard s
         /\ currentCard (Nat.iter k prevCard s) <> currentCard s)
  /\ currentCard (Nat.iter (Z.to_nat N) nextCard s) = currentCard s
  /\ currentCard (Nat.iter (Z.to_nat N) prevCard s) = currentCard s
  /\ (forall k : nat,
         0 <= currentCard (Nat.iter k nextCard s) < N
         /\ 0 <= currentCard (Nat.iter k prevCard s) < N).
Proof.
  intros N HN Hc. subst N. repeat apply conj.
  - apply nextCard_currentCard; lia.
  - apply prevCard_currentCard; lia.
  - intros k.
    destruct (iter_nextCard s k HN Hc) as [_ ->].
    destruct (iter_prevCard s k HN Hc) as [_ ->].
    split; reflexivity.
  - intros k Hk.
    destruct (iter_nextCard s k HN Hc) as [_ ->].
    destruct (iter_prevCard s k HN Hc) as [_ ->].
    split; intros Heq.
    + destruct (Z_lt_le_dec (currentCard s + Z.of_nat k) (cardsLength s))
        as [Hsmall | Hwrap].
      * rewrite Z.mod_small in Heq by lia. lia.
      * replace (currentCard s + Z.of_nat k)
          with (currentCard s + Z.of_nat k - cardsLength s
                + 1 * cardsLength s) in Heq by lia.
        rewrite Z_mod_plus_full, Z.mod_small in Heq by lia. lia.
    + destruct (Z_lt_le_dec (currentCard s - Z.of_nat k) 0)
        as [Hwrap | Hsmall].
      * replace (currentCard s - Z.of_nat k)
          with (currentCard s - Z.of_nat k + cardsLength s
                + (-1) * cardsLength s) in Heq by lia.
        rewrite Z_mod_plus_full, Z.mod_small in Heq by lia. lia.
      * rewrite Z.mod_small in Heq by lia. lia.
  - destruct (iter_nextCard s (Z.to_nat (cardsLength s)) HN Hc) as [_ ->].
    rewrite Z2Nat.id by lia.
    replace (currentCard s + cardsLength s)
      with (currentCard s + 1 * cardsLength s) by lia.
    rewrite Z_mod_plus_full. apply Z.mod_small. exact Hc.
  - destruct (iter_prevCard s (Z.to_nat (cardsLength s)) HN Hc) as [_ ->].
    rewrite Z2Nat.id by lia.
    replace (currentCard s - cardsLength s)
      with (currentCard s + (-1) * cardsLength s) by lia.
    rewrite Z_mod_plus_full. apply Z.mod_small. exact Hc.
  - intros k.
    destruct (iter_nextCard s k HN Hc) as [_ ->].
    destruct (iter_prevCard s k HN Hc) as [_ ->].
    split; apply Z.mod_pos_bound; exact HN.
Qed.

Lemma navigation_is_cyclic_witness :
  currentCard (nextCard Sample.threeCards) = 1
  /\ currentCard (prevCard Sample.threeCards) = 2
  /\ currentCard (Nat.iter 2 nextCard Sample.threeCards)
     <> currentCard Sample.threeCards
  /\ currentCard (Nat.iter 3 nextCard Sample.threeCards)
     = currentCard Sample.threeCards.
Proof.
  assert (HN : 0 < cardsLength Sample.threeCards) by reflexivity.
  assert (Hc : 0 <= currentCard Sample.threeCards
               < cardsLength Sample.threeCards)
    by (vm_compute; split; [discriminate | reflexivity]).
  destruct (navigation_is_cyclic Sample.threeCards HN Hc)
    as (Hnext & Hprev & _ & Hother & Hround & _).
  repeat apply conj.
  - exact Hnext.
  - exact Hprev.
  - assert (Hk : 0 < Z.of_nat 2 < cardsLength Sample.threeCards)
      by (vm_compute; split; reflexivity).
    exact (proj1 (Hother 2%nat Hk)).
  - exact Hround.
Defined.

(** How a finished gesture is read when neither end lies at coordinate 0. *)
Lemma handleTouchEnd_swipe (s : State) (x0 x1 : Q) :
  touchStart s = Some x0 -> touchEnd s = Some x1 ->
  ~ (x0 == 0)%Q -> ~ (x1 == 0)%Q ->
  ((50 < x0 - x1)%Q -> handleTouchEnd s = nextCard s)
  /\ ((x0 - x1 < -50)%Q -> handleTouchEnd s = prevCard s)
  /\ ((-50 <= x0 - x1 <= 50)%Q -> handleTouchEnd s = s).
Proof.
  intros Hs He H0 H1. unfold handleTouchEnd.
  rewrite Hs, He. cbn [Js.not Js.to_number].
  destruct (Qeq_bool x0 0) eqn:E0;
    [apply Qeq_bool_iff in E0; contradiction|].
  destruct (Qeq_bool x1 0) eqn:E1;
    [apply Qeq_bool_iff in E1; contradiction|].
  cbn [orb].
  destruct (Qle_bool (x0 - x1) 50) eqn:L;
    [apply Qle_bool_iff in L | apply Qle_bool_false in L];
  (destruct (Qle_bool (-50) (x0 - x1)) eqn:R;
    [apply Qle_bool_iff in R | apply Qle_bool_false in R]);
  cbn [negb]; repeat split; intros; try reflexivity; lra.
Qed.

(** C8. A swipe of 60 units to the left that ends at the left edge (from
    coordinate 60 to coordinate 0) leaves the focus where it was, and so
    does the opposite swipe that starts at the edge; the same movements one
    unit further right go to the next and the previous card. *)
Theorem swipe_touching_the_edge_is_dropped :
  let gesture x0 x1 s :=
    handleTouchEnd (handleTouchMove x1 (handleTouchStart x0 s)) in
  currentCard Sample.threeCards = 0
  /\ currentCard (gesture 60%Q 0%Q Sample.threeCards) = 0
  /\ currentCard (gesture 61%Q 1%Q Sample.threeCards) = 1
  /\ currentCard (gesture 0%Q 60%Q Sample.threeCards) = 0
  /\ currentCard (gesture 1%Q 61%Q Sample.threeCards) = 2.
Proof. repeat split. Qed.

Lemma progress_commit (s s' : State) :
  progress (commit s s') = progress s' \/ progress (commit s s') = 0.
Proof.
  unfold commit. destruct (depsChanged s s'); [right | left; reflexivity].
  unfold autoPlayEffect.
  destruct (isAutoPlaying (stopAutoPlay s')
            && (0 <? cardsLength (stopAutoPlay s'))); reflexivity.
Qed.

Lemma progress_handle (e : Event) (s : State) :
  0 <= progress s <= 100 -> 0 <= progress (handle e s) <= 100.
Proof.
  intros H. destruct e; cbn [handle]; try exact H.
  - destruct (progressRef s); [|exact H].
    unfold progressTick. cbn [progress setProgress].
    destruct (Z.leb_spec 100 (progress s)); lia.
  - destruct (intervalRef s); [|exact H]. cbn. lia.
  - unfold nextCard. destruct (0 <? cardsLength s); [cbn; lia | exact H].
  - unfold prevCard. destruct (0 <? cardsLength s); [cbn; lia | exact H].
  - unfold handleTouchEnd, nextCard, prevCard.
    repeat match goal with
           | |- context [if ?b then _ else _] => destruct b
           end; first [exact H | cbn; lia].
Qed.

Lemma progress_reachable (s : State) :
  reachable s -> 0 <= progress s <= 100.
Proof.
  induction 1 as [|e s _ IH].
  - cbn. lia.
  - unfold dispatch.
    destruct (progress_commit s (handle e s)) as [-> | ->];
      [apply progress_handle; exact IH | lia].
Qed.

(** C9. The progress ratio starts at 0 and lies within [0, 100] in every
    reachable state; there a tick of the progress timer adds 1 to it below
    100 and takes it from 100 back to 0; moving to the next or previous
    card, the rotation timer and stopping the auto play each set it to 0,
    and so does the pause brought about by a click on the card. *)
Theorem progress_within_bounds :
  progress initial = 0
  /\ (forall s, reachable s -> 0 <= progress s <= 100)
  /\ (forall s, reachable s ->
        progress (progressTick s)
        = (if progress s <? 100 then progress s + 1 else 0)
        /\ 0 <= progress (progressTick s) <= 100)
  /\ (forall s, 0 < cardsLength s ->
        progress (nextCard s) = 0 /\ progress (prevCard s) = 0)
  /\ (forall s, progress (rotationTick s) = 0)
  /\ (forall s, progress (stopAutoPlay s) = 0)
  /\ (forall s, isAutoPlaying s = true ->
        progress (dispatch CardClick s) = 0).
Proof.
  repeat apply conj.
  - reflexivity.
  - exact progress_reachable.
  - intros s Hs. apply progress_reachable in Hs.
    unfold progressTick. cbn [progress setProgress].
    destruct (Z.leb_spec 100 (progress s));
      destruct (Z.ltb_spec (progress s) 100); lia.
  - intros s HN. unfold nextCard, prevCard.
    destruct (Z.ltb_spec 0 (cardsLength s)); [split; reflexivity | lia].
  - reflexivity.
  - reflexivity.
  - intros s Hplay. unfold dispatch, commit.
    assert (Hdeps : depsChanged s (handle CardClick s) = true).
    { unfold depsChanged.
      cbn [handle handleCardClick isAutoPlaying setIsAutoPlaying].
      rewrite Hplay. reflexivity. }
    rewrite Hdeps. unfold autoPlayEffect.
    destruct (isAutoPlaying (stopAutoPlay (handle CardClick s))
              && (0 <? cardsLength (stopAutoPlay (handle CardClick s))));
      reflexivity.
Qed.

Lemma progress_within_bounds_witness :
  0 <= progress (run [ProgressTimer; ProgressTimer] Sample.threeCards)
    <= 100
  /\ progress (nextCard
                 (run [ProgressTimer; ProgressTimer] Sample.threeCards)) = 0.
Proof.
  destruct progress_within_bounds as (_ & Hrange & _ & Hmove & _).
  split.
  - apply Hrange. repeat apply reachable_dispatch. apply reachable_initial.
  - apply Hmove. reflexivity.
Defined.

End SequencerClaims.

(** * Further properties *)

(** ** Ages and counts over time *)

Section AgeOverTime.

Local Open Scope Q_scope.

(** X1. The two [getCurrentAge] never differ by more than one year: the
    one of the data loader is the one of the calculation utilities, or one
    more, and they agree exactly from the birthday month on. *)
Theorem getCurrentAge_versions_differ_by_one (now : Date) (profile : Profile) :
  (DataLoader.getCurrentAge now profile - 1
   <= Calculations.getCurrentAge now profile
   <= DataLoader.getCurrentAge now profile)%Z
  /\ (Calculations.getCurrentAge now profile
      = DataLoader.getCurrentAge now profile
      <-> (birth_month (demographics profile) <= getMonth now + 1)%Z).
Proof.
  unfold Calculations.getCurrentAge, DataLoader.getCurrentAge. cbv zeta.
  destruct (Z.ltb_spec (getMonth now + 1)
              (birth_month (demographics profile))); lia.
Qed.

Lemma getCurrentAge_versions_differ_by_one_witness :
  Calculations.getCurrentAge Sample.june2026 Sample.profile57
  = DataLoader.getCurrentAge Sample.june2026 Sample.profile57.
Proof.
  apply (proj2 (getCurrentAge_versions_differ_by_one
                  Sample.june2026 Sample.profile57)).
  discriminate.
Defined.

Lemma getCurrentAge_monotone (now later : Date) (profile : Profile) :
  (getFullYear now < getFullYear later)%Z
  \/ (getFullYear now = getFullYear later
      /\ (getMonth now <= getMonth later)%Z) ->
  (Calculations.getCurrentAge now profile
   <= Calculations.getCurrentAge later profile)%Z.
Proof.
  unfold Calculations.getCurrentAge. cbv zeta. intros Horder.
  destruct (Z.ltb_spec (getMonth now + 1)
              (birth_month (demographics profile)));
  destruct (Z.ltb_spec (getMonth later + 1)
              (birth_month (demographics profile))); lia.
Qed.

(** X2. The age of the calculation utilities never goes down as the date
    advances, and the same month of the next year gives exactly one year
    more. *)
Theorem getCurrentAge_advances (now later : Date) (profile : Profile) :
  ((getFullYear now < getFullYear later)%Z
   \/ (getFullYear now = getFullYear later
       /\ (getMonth now <= getMonth later)%Z) ->
   (Calculations.getCurrentAge now profile
    <= Calculations.getCurrentAge later profile)%Z)
  /\ Calculations.getCurrentAge
       {| getFullYear := getFullYear now + 1; getMonth := getMonth now |}
       profile
     = (Calculations.getCurrentAge now profile + 1)%Z.
Proof.
  split; [apply getCurrentAge_monotone|].
  unfold Calculations.getCurrentAge. cbv zeta. cbn [getFullYear getMonth].
  destruct (Z.ltb_spec (getMonth now + 1)
              (birth_month (demographics profile))); lia.
Qed.

Lemma getCurrentAge_advances_witness :
  (Calculations.getCurrentAge Sample.june2026 Sample.profileDecember
   <= Calculations.getCurrentAge
        {| getFullYear := 2026; getMonth := 11 |} Sample.profileDecember)%Z.
Proof.
  apply (proj1 (getCurrentAge_advances
                  Sample.june2026 {| getFullYear := 2026; getMonth := 11 |}
                  Sample.profileDecember)).
  right. split; [reflexivity | discriminate].
Defined.

(** X3. For an activity with a rate that is not negative and a start no
    later than its end age, the remaining count is never negative and never
    goes up as the date advances. *)
Theorem remaining_never_increases
    (now later : Date) (activity : Activity) (profile : Profile) :
  Js.le (Js.Num 0)
        (Calculations.convertFrequencyToYearly (frequency activity)) ->
  default 0 (start (age_range activity))
    <= Calculations.activityEndAge activity profile ->
  (getFullYear now < getFullYear later)%Z
  \/ (getFullYear now = getFullYear later
      /\ (getMonth now <= getMonth later)%Z) ->
  Js.le (Js.Num 0)
        (Calculations.calculateRemainingOccurrences later activity profile)
  /\ Js.le (Calculations.calculateRemainingOccurrences later activity profile)
           (Calculations.calculateRemainingOccurrences now activity profile).
Proof.
  intros Hrate Hstart Horder.
  split; [apply calculateRemainingOccurrences_nonneg; assumption|].
  pose proof (getCurrentAge_monotone now later profile Horder) as Hage.
  rewrite Zle_Qle in Hage.
  pose proof (calculateRemainingOccurrences_nonneg
                now activity profile Hrate Hstart) as Hnonneg.
  revert Hnonneg.
  unfold Calculations.calculateRemainingOccurrences. cbv zeta.
  destruct (Calculations.convertFrequencyToYearly (frequency activity))
    as [rate|]; [|contradiction].
  cbn [Js.le] in Hrate.
  set (E := Calculations.activityEndAge activity profile) in *.
  set (S0 := Js.or_default (start (age_range activity)) 0).
  set (a := inject_Z (Calculations.getCurrentAge now profile)) in *.
  set (a' := inject_Z (Calculations.getCurrentAge later profile)) in *.
  destruct (Qle_bool E a) eqn:Ha; destruct (Qle_bool E a') eqn:Ha';
    intros Hnonneg.
  - apply Qle_refl.
  - apply Qle_bool_iff in Ha. apply Qle_bool_false in Ha'. lra.
  - exact Hnonneg.
  - apply floor_le.
    apply Qle_bool_false in Ha, Ha'.
    destruct (Math_max_cases S0 a) as [[H1 ->] | [H1 ->]];
    destruct (Math_max_cases S0 a') as [[H2 ->] | [H2 ->]]; nra.
Qed.

Lemma remaining_never_increases_witness :
  Js.le (Js.Num 0)
        (Calculations.calculateRemainingOccurrences
           {| getFullYear := 2031; getMonth := 0 |}
           Sample.fiftyToSeventy Sample.profile57)
  /\ Js.le (Calculations.calculateRemainingOccurrences
              {| getFullYear := 2031; getMonth := 0 |}
              Sample.fiftyToSeventy Sample.profile57)
           (Calculations.calculateRemainingOccurrences
              Sample.june2026 Sample.fiftyToSeventy Sample.profile57).
Proof.
  apply (remaining_never_increases
           Sample.june2026 {| getFullYear := 2031; getMonth := 0 |}
           Sample.fiftyToSeventy Sample.profile57).
  - vm_compute. discriminate.
  - discriminate.
  - left. reflexivity.
Defined.

(** X4. For an activity that runs for life (flexible end), has already
    started and has a rate that is a number, the remaining count of the
    calculation utilities is the total that the breakdown of the data
    loader computes, from the same frequency, for the years remaining of
    the profile: both are the floor of the product of the same two numbers.
    This includes the time past the life expectancy, where both are 0. *)
Theorem lifelong_remaining_from_years
    (now : Date) (activity : Activity) (profile : Profile)
    (raw : Loader.RawActivity) :
  Loader.frequency raw = frequency activity ->
  flexible_end (age_range activity) = true ->
  default 0 (start (age_range activity))
    <= inject_Z (Calculations.getCurrentAge now profile) ->
  Calculations.convertFrequencyToYearly (frequency activity) <> Js.NaN ->
  Calculations.calculateRemainingOccurrences now activity profile
  = Loader.totalCount raw (Calculations.getYearsRemaining now profile).
Proof.
  intros Hraw Hflex Hstart Hnum.
  unfold Loader.totalCount, Calculations.calculateRemainingOccurrences,
    Calculations.getYearsRemaining, Calculations.activityEndAge.
  cbv zeta. rewrite Hflex, Hraw.
  change (DataLoader.convertToYearlyFrequency (frequency activity))
    with (Calculations.convertFrequencyToYearly (frequency activity)).
  destruct (Calculations.convertFrequencyToYearly (frequency activity))
    as [rate|]; [|contradiction].
  set (L := years (life_expectancy profile)).
  set (a := inject_Z (Calculations.getCurrentAge now profile)) in *.
  pose proof (or_default_zero (start (age_range activity))) as H0.
  cbn [Js.mul].
  destruct (Qle_bool L a) eqn:HL.
  - apply Qle_bool_iff in HL.
    rewrite (floor_comp (rate * Js.Math_max 0 (L - a)) 0); [reflexivity|].
    destruct (Math_max_cases 0 (L - a)) as [[H ->] | [H ->]]; [|ring].
    assert (Hz : L - a == 0) by lra. rewrite Hz. ring.
  - apply Qle_bool_false in HL. apply floor_comp.
    destruct (Math_max_cases 0 (L - a)) as [[H ->] | [H ->]]; [|lra].
    destruct (Math_max_cases
                (Js.or_default (start (age_range activity)) 0) a)
      as [[H1 ->] | [H1 ->]]; [ring | lra].
Qed.

Lemma lifelong_remaining_from_years_witness :
  Calculations.calculateRemainingOccurrences
    Sample.june2026
    (Sample.mkActivity 2 "month" None None true) Sample.profile57
  = Loader.totalCount
      {| Loader.name := "Sunsets"; Loader.display := {| Loader.icon := "*" |};
         Loader.frequency := {| times := 2; period := "month" |};
         Loader.description := "Evening walks";
         Loader.metadata := {| Loader.is_active := None |} |}
      (Calculations.getYearsRemaining Sample.june2026 Sample.profile57).
Proof.
  apply (lifelong_remaining_from_years
           Sample.june2026
           (Sample.mkActivity 2 "month" None None true) Sample.profile57).
  - reflexivity.
  - reflexivity.
  - discriminate.
  - discriminate.
Defined.

End AgeOverTime.

Section CompletionEnds.

Local Open Scope Q_scope.

Lemma Math_round_comp (x y : Q) :
  x == y -> Js.Math_round x = Js.Math_round y.
Proof.
  intros H. unfold Js.Math_round. apply Qfloor_comp. rewrite H. reflexivity.
Qed.

(** X5. For an activity whose yearly rate is a number: the completion
    percentage is 100 once the current age has reached the end age of the
    activity, whatever its counts; and it is 0 for an activity that has not
    started yet (current age at most its start, start before its end)
    unless its lifetime total is 0. *)
Theorem completion_at_both_ends
    (now : Date) (activity : Activity) (profile : Profile) :
  Calculations.convertFrequencyToYearly (frequency activity) <> Js.NaN ->
  let age := inject_Z (Calculations.getCurrentAge now profile) in
  let first := default 0 (start (age_range activity)) in
  let last := Calculations.activityEndAge activity profile in
  (last <= age ->
   Calculations.calculateCompletionPercentage now activity profile
   = Js.Num 100)
  /\ (age <= first -> first < last ->
      Js.isZero (Calculations.calculateTotalOccurrences activity profile)
      = false ->
      Calculations.calculateCompletionPercentage now activity profile
      = Js.Num 0).
Proof.
  intros Hnum age first last.
  pose proof (or_default_zero (start (age_range activity))) as H0.
  fold first in H0.
  assert (Htotal : exists T : Z,
             Calculations.calculateTotalOccurrences activity profile
             = Js.Num (inject_Z T)).
  { unfold Calculations.calculateTotalOccurrences. cbv zeta.
    destruct (Calculations.convertFrequencyToYearly (frequency activity))
      as [rate|]; [|contradiction].
    eexists. reflexivity. }
  destruct Htotal as [T HT].
  unfold Calculations.calculateCompletionPercentage. cbv zeta. split.
  - intros Hlapsed.
    assert (Hrem : Calculations.calculateRemainingOccurrences
                     now activity profile = Js.Num 0).
    { unfold Calculations.calculateRemainingOccurrences. cbv zeta.
      fold last. fold age.
      apply Qle_bool_iff in Hlapsed. rewrite Hlapsed. reflexivity. }
    rewrite Hrem, HT. cbn [Js.isZero Js.sub Js.div].
    destruct (Qeq_bool (inject_Z T) 0) eqn:Hz; [reflexivity|].
    cbn [Js.mul Js.round].
    rewrite (Math_round_comp _ 100); [reflexivity|].
    field. intros Hzero. apply Qeq_bool_iff in Hzero. congruence.
  - intros Hearly Hspan Hne.
    assert (Hrem : Calculations.calculateRemainingOccurrences
                     now activity profile
                   = Calculations.calculateTotalOccurrences
                       activity profile).
    { unfold Calculations.calculateRemainingOccurrences,
        Calculations.calculateTotalOccurrences. cbv zeta.
      fold last. fold age.
      set (S0 := Js.or_default (start (age_range activity)) 0) in *.
      destruct (Calculations.convertFrequencyToYearly (frequency activity))
        as [rate|]; [|contradiction].
      destruct (Qle_bool last age) eqn:Hb;
        [apply Qle_bool_iff in Hb; lra|].
      cbn [Js.mul]. apply floor_comp.
      destruct (Math_max_cases S0 age) as [[H1 ->] | [H1 ->]];
      destruct (Math_max_cases 0 (last - S0)) as [[H2 ->] | [H2 ->]];
        try lra; try reflexivity.
      assert (Heq : age == S0) by lra. rewrite Heq. reflexivity. }
    rewrite Hrem. rewrite HT in *. cbn [Js.isZero] in Hne.
    cbn [Js.isZero Js.sub Js.div]. rewrite Hne.
    cbn [Js.mul Js.round].
    rewrite (Math_round_comp _ 0); [reflexivity|].
    unfold Qdiv. ring.
Qed.

Lemma completion_at_both_ends_witness :
  Calculations.calculateCompletionPercentage
    Sample.june2026 Sample.fiftyToSeventy Sample.profile86 = Js.Num 100
  /\ Calculations.calculateCompletionPercentage
       Sample.june2026
       (Sample.mkActivity 1 "week" (Some 60) (Some 70) false)
       Sample.profile57 = Js.Num 0.
Proof.
  assert (Hweek : forall a : Activity,
             frequency a = {| times := 1; period := "week" |} ->
             Calculations.convertFrequencyToYearly (frequency a) <> Js.NaN).
  { intros a ->. discriminate. }
  pose proof (completion_at_both_ends
                Sample.june2026 Sample.fiftyToSeventy Sample.profile86
                (Hweek Sample.fiftyToSeventy eq_refl))
    as [Hlapsed _].
  pose proof (completion_at_both_ends
                Sample.june2026
                (Sample.mkActivity 1 "week" (Some 60) (Some 70) false)
                Sample.profile57
                (Hweek (Sample.mkActivity 1 "week" (Some 60) (Some 70) false)
                   eq_refl))
    as [_ Hearly].
  split.
  - apply Hlapsed. discriminate.
  - apply Hearly; [discriminate | reflexivity | reflexivity].
Defined.

End CompletionEnds.

(** ** The data loader *)

Section LoaderFacts.

Local Open Scope Q_scope.

Import Loader.

(** X6. [convertActivitiesToLegacyFormat] turns each activity into one
    legacy activity at the same place, gives it its place counted from 1 as
    [id] and its yearly rate as [frequency]; so the ids of the result are
    all different. *)
Theorem legacy_ids_count_from_one (activities : list RawActivity) :
  length (convertActivitiesToLegacyFormat activities) = length activities
  /\ (forall (i : nat) (activity : RawActivity),
         activities !! i = Some activity ->
         exists legacy,
           convertActivitiesToLegacyFormat activities !! i = Some legacy
           /\ Finitude.id legacy = (Z.of_nat i + 1)%Z
           /\ Finitude.frequency legacy
              = DataLoader.convertToYearlyFrequency (frequency activity)
           /\ Finitude.name legacy = name activity
           /\ Finitude.icon legacy = icon (display activity)
           /\ Finitude.description legacy = description activity)
  /\ NoDup (map Finitude.id (convertActivitiesToLegacyFormat activities)).
Proof.
  unfold convertActivitiesToLegacyFormat.
  split; [apply length_imap|]. split.
  - intros i activity Hi. eexists. split.
    + rewrite list_lookup_imap, Hi. reflexivity.
    + repeat split.
  - apply NoDup_alt. intros i j x Hi Hj.
    change (map Finitude.id ?l) with (Finitude.id <$> l) in Hi, Hj.
    rewrite list_lookup_fmap, list_lookup_imap in Hi, Hj.
    destruct (activities !! i) as [a|]; [|discriminate].
    destruct (activities !! j) as [b|]; [|discriminate].
    cbn in Hi, Hj. injection Hi as Hi. injection Hj as Hj. lia.
Qed.

Lemma legacy_ids_count_from_one_witness :
  exists legacy,
    convertActivitiesToLegacyFormat
      [ {| name := "Sunsets"; display := {| icon := "*" |};
           frequency := {| times := 2; period := "week" |};
           description := "Evening walks";
           metadata := {| is_active := None |} |} ] !! 0%nat = Some legacy
    /\ Finitude.id legacy = 1%Z.
Proof.
  destruct (proj1 (proj2 (legacy_ids_count_from_one
              [ {| name := "Sunsets"; display := {| icon := "*" |};
                   frequency := {| times := 2; period := "week" |};
                   description := "Evening walks";
                   metadata := {| is_active := None |} |} ]))
              0%nat _ eq_refl)
    as (legacy & Hlookup & Hid & _).
  exists legacy. split; [exact Hlookup | exact Hid].
Defined.

Lemma legacy_ids_NoDup (activities : list RawActivity) :
  NoDup (map Finitude.id (convertActivitiesToLegacyFormat activities)).
Proof.
  unfold convertActivitiesToLegacyFormat.
  apply NoDup_alt. intros i j x Hi Hj.
  change (map Finitude.id ?l) with (Finitude.id <$> l) in Hi, Hj.
  rewrite list_lookup_fmap, list_lookup_imap in Hi, Hj.
  destruct (activities !! i) as [a|]; [|discriminate].
  destruct (activities !! j) as [b|]; [|discriminate].
  cbn in Hi, Hj. injection Hi as Hi. injection Hj as Hj. lia.
Qed.

(** X7. What the mount effect hands to [setActivities] is a shuffle of a
    list, so it is known up to its order.  Without stored activities, or
    with an empty stored list, it holds the legacy form of the default
    activities that are not marked inactive (a missing flag counts as
    active): as many entries as there are such activities, ids all
    different, and an entry is in it exactly when it is the conversion of
    the activity at some place [i] of the file order, with [i + 1] for id.
    A non-empty stored list is handed over with its own entries, each as
    often as stored, and the defaults are not looked at. *)
Theorem mount_activities_up_to_order
    (userActivities : option (list Finitude.LegacyActivity))
    (defaultActivities : option (list RawActivity))
    (shuffledActivities : list Finitude.LegacyActivity) :
  Editing.mountActivities userActivities defaultActivities
    shuffledActivities ->
  let kept :=
    List.filter (fun a => negb (bool_decide
                                  (is_active (metadata a) = Some false)))
      (default [] defaultActivities) in
  (userActivities = None \/ userActivities = Some [] ->
   convertActivitiesToLegacyFormat kept ≡ₚ shuffledActivities
   /\ length shuffledActivities = length kept
   /\ NoDup (map Finitude.id shuffledActivities)
   /\ (forall legacy : Finitude.LegacyActivity,
          legacy ∈ shuffledActivities
          <-> exists (i : nat) (raw : RawActivity),
                kept !! i = Some raw
                /\ legacy
                   = {| Finitude.id := Z.of_nat i + 1;
                        Finitude.name := name raw;
                        Finitude.icon := icon (display raw);
                        Finitude.frequency :=
                          DataLoader.convertToYearlyFrequency
                            (frequency raw);
                        Finitude.description := description raw |}))
  /\ (forall l, userActivities = Some l -> l <> [] ->
        l ≡ₚ shuffledActivities
        /\ length shuffledActivities = length l
        /\ (forall legacy : Finitude.LegacyActivity,
               legacy ∈ shuffledActivities <-> legacy ∈ l)).
Proof.
  intros Hshuffle kept.
  unfold Editing.mountActivities, Editing.shuffled in Hshuffle.
  assert (Hkept : loadDefaultActivities defaultActivities = kept).
  { unfold loadDefaultActivities, kept. cbv zeta.
    apply List.filter_ext. intros a.
    destruct (is_active (metadata a)) as [[|]|]; reflexivity. }
  split.
  - intros Huser.
    assert (Hset : Editing.activitiesToSet userActivities defaultActivities
                   = convertActivitiesToLegacyFormat kept).
    { destruct Huser as [-> | ->]; unfold Editing.activitiesToSet; cbn;
        rewrite Hkept; reflexivity. }
    rewrite Hset in Hshuffle.
    split; [exact Hshuffle|].
    split.
    { rewrite <- Hshuffle. unfold convertActivitiesToLegacyFormat.
      apply length_imap. }
    split.
    { change (map Finitude.id shuffledActivities)
        with (Finitude.id <$> shuffledActivities).
      rewrite <- Hshuffle. apply legacy_ids_NoDup. }
    intros legacy. rewrite <- Hshuffle.
    unfold convertActivitiesToLegacyFormat.
    rewrite list_elem_of_lookup. split.
    + intros [i Hi]. rewrite list_lookup_imap in Hi.
      apply fmap_Some in Hi as (raw & Hraw & ->).
      exists i, raw. split; [exact Hraw | reflexivity].
    + intros (i & raw & Hraw & ->). exists i.
      rewrite list_lookup_imap, Hraw. reflexivity.
  - intros l -> Hl.
    assert (Hset : Editing.activitiesToSet (Some l) defaultActivities = l).
    { unfold Editing.activitiesToSet.
      destruct l as [|x l]; [contradiction | reflexivity]. }
    rewrite Hset in Hshuffle.
    split; [exact Hshuffle|].
    split; [rewrite <- Hshuffle; reflexivity|].
    intros legacy. rewrite <- Hshuffle. reflexivity.
Qed.

Lemma mount_activities_up_to_order_witness :
  let sunsets :=
    {| name := "Sunsets"; display := {| icon := "*" |};
       frequency := {| times := 2; period := "week" |};
       description := "Evening walks";
       metadata := {| is_active := Some false |} |} in
  let birthdays :=
    {| name := "Birthdays"; display := {| icon := "+" |};
       frequency := {| times := 1; period := "year" |};
       description := "Cake";
       metadata := {| is_active := None |} |} in
  let walks :=
    {| name := "Walks"; display := {| icon := "-" |};
       frequency := {| times := 1; period := "day" |};
       description := "Around the block";
       metadata := {| is_active := Some true |} |} in
  let shuffledActivities :=
    rev (Editing.activitiesToSet (Some [])
           (Some [sunsets; birthdays; walks])) in
  map Finitude.name shuffledActivities = ["Walks"; "Birthdays"]
  /\ length shuffledActivities = 2%nat
  /\ NoDup (map Finitude.id shuffledActivities).
Proof.
  intros sunsets birthdays walks shuffledActivities.
  split; [reflexivity|].
  assert (Hmount : Editing.mountActivities (Some [])
                     (Some [sunsets; birthdays; walks]) shuffledActivities).
  { unfold Editing.mountActivities, Editing.shuffled.
    apply Permutation_rev. }
  pose proof (mount_activities_up_to_order
                (Some []) (Some [sunsets; birthdays; walks])
                shuffledActivities Hmount) as [Hdefaults _].
  destruct Hdefaults as (_ & Hlength & Hids & _); [right; reflexivity|].
  split; [exact Hlength | exact Hids].
Defined.

End LoaderFacts.

Section TimeRemainingFacts.

Local Open Scope Q_scope.

Import Loader.

Variable numberToString : Q -> string.
Variable toLocaleString : Js.number -> string.

(** The multiplier of a period is one of four whole numbers, unless the
    period is an inherited name. *)
Lemma multiplier_cases (p : string) :
  p ∉ Js.objectPrototype ->
  (p = "day"%string
   /\ Js.or_number (Js.get DataLoader.multipliers p) 1
      = Js.Num (inject_Z 365))
  \/ (p = "week"%string
      /\ Js.or_number (Js.get DataLoader.multipliers p) 1
         = Js.Num (inject_Z 52))
  \/ (p = "month"%string
      /\ Js.or_number (Js.get DataLoader.multipliers p) 1
         = Js.Num (inject_Z 12))
  \/ ((p <> "day"%string /\ p <> "week"%string /\ p <> "month"%string)
      /\ Js.or_number (Js.get DataLoader.multipliers p) 1
         = Js.Num (inject_Z 1)).
Proof.
  intros Hout.
  destruct (String.eqb_spec p "day") as [-> | Hd];
    [left; split; reflexivity|].
  destruct (String.eqb_spec p "week") as [-> | Hw];
    [right; left; split; reflexivity|].
  destruct (String.eqb_spec p "month") as [-> | Hm];
    [right; right; left; split; reflexivity|].
  right; right; right. split; [tauto|].
  destruct (String.eqb_spec p "year") as [-> | Hy]; [reflexivity|].
  rewrite multipliers_shared, (get_undefined p Hd Hw Hm Hy Hout).
  reflexivity.
Qed.

(** The amount is the floor of the years times that multiplier. *)
Lemma amount_floor (yearsRemaining : Q) (f : Frequency) :
  period f ∉ Js.objectPrototype ->
  exists m : Z,
    (0 < m)%Z
    /\ Js.or_number (Js.get DataLoader.multipliers (period f)) 1
       = Js.Num (inject_Z m)
    /\ amount (calculateTimeRemaining numberToString toLocaleString
                 yearsRemaining f)
       = Qfloor (yearsRemaining * inject_Z m).
Proof.
  intros Hout. unfold calculateTimeRemaining. cbv zeta.
  destruct (multiplier_cases (period f) Hout)
    as [[Hp ->] | [[Hp ->] | [[Hp ->] | [(Hd & Hw & Hm) ->]]]];
    eexists; (split; [|split; [reflexivity|]]); try lia.
  - rewrite Hp. reflexivity.
  - rewrite Hp. reflexivity.
  - rewrite Hp. reflexivity.
  - apply String.eqb_neq in Hd, Hw, Hm. rewrite Hd, Hw, Hm.
    cbn [amount]. unfold Js.Math_floor. apply Qfloor_comp.
    change (inject_Z 1) with 1. ring.
Qed.

Lemma amount_nonneg (yearsRemaining : Q) (f : Frequency) :
  0 <= yearsRemaining ->
  (0 <= amount (calculateTimeRemaining numberToString toLocaleString
                  yearsRemaining f))%Z.
Proof.
  intros Hy. unfold calculateTimeRemaining. cbv zeta.
  repeat match goal with
         | |- context [if ?b then _ else _] => destruct b
         end;
    cbn [amount]; apply Math_floor_nonneg; lra.
Qed.

(** X8. For every period that is not an inherited name, the amount of
    [calculateTimeRemaining] is the total that the breakdown computes for an
    activity done once per that period: both multiply the years by the
    multiplier of the period, known or not, and take the floor.  The amount
    is not negative when the years are not; and every period other than
    day, week and month is counted in years. *)
Theorem timeRemaining_follows_multipliers
    (yearsRemaining : Q) (f : Frequency) :
  let remaining :=
    calculateTimeRemaining numberToString toLocaleString yearsRemaining f in
  (period f ∉ Js.objectPrototype ->
   forall once : RawActivity,
     frequency once = {| times := 1; period := period f |} ->
     totalCount once yearsRemaining = Js.Num (inject_Z (amount remaining)))
  /\ (0 <= yearsRemaining -> (0 <= amount remaining)%Z)
  /\ (period f <> "day"%string -> period f <> "week"%string ->
      period f <> "month"%string ->
      unit_ remaining = "years"%string
      /\ amount remaining = Qfloor yearsRemaining).
Proof.
  cbv zeta. repeat apply conj.
  - intros Hout once Honce.
    destruct (amount_floor yearsRemaining f Hout) as (m & _ & Hm & ->).
    unfold totalCount, DataLoader.convertToYearlyFrequency.
    rewrite Honce. cbn [times period]. rewrite Hm.
    cbn [Js.mul Js.floor]. unfold Js.Math_floor.
    rewrite (Qfloor_comp (1 * inject_Z m * yearsRemaining)
               (yearsRemaining * inject_Z m)) by ring.
    reflexivity.
  - apply amount_nonneg.
  - intros Hd Hw Hm.
    unfold calculateTimeRemaining. cbv zeta.
    apply String.eqb_neq in Hd, Hw, Hm. rewrite Hd, Hw, Hm.
    split; reflexivity.
Qed.

(** X9. The breakdown shows [times x amount = totalCount].  Take a period
    that is not an inherited name, a whole [times] from 0 to a million and
    years remaining that are a whole number of half years, at most half a
    million either way: there every product the code takes is exact.  Then
    the total shown is a whole number between [times * amount] and
    [times * amount + times - 1]; the equation shown is exact when [times]
    is 1 and when the years remaining are a whole number. *)
Theorem breakdown_equation
    (activity : RawActivity) (yearsRemaining : Q) (t h : Z) :
  period (frequency activity) ∉ Js.objectPrototype ->
  times (frequency activity) == inject_Z t -> (0 <= t <= 1000000)%Z ->
  yearsRemaining == inject_Z h / 2 -> (-1000000 <= h <= 1000000)%Z ->
  let shown :=
    amount (calculateTimeRemaining numberToString toLocaleString
              yearsRemaining (frequency activity)) in
  exists total : Z,
    totalCount activity yearsRemaining = Js.Num (inject_Z total)
    /\ (exists sign,
           calculation (generateCalculationBreakdown
                          numberToString toLocaleString activity
                          yearsRemaining)
           = numberToString (times (frequency activity)) +:+ sign
             +:+ toLocaleString (Js.Num (inject_Z shown)) +:+ " = "
             +:+ toLocaleString (Js.Num (inject_Z total)))
    /\ (t * shown <= total <= t * shown + Z.max 0 (t - 1))%Z
    /\ (t = 1%Z -> total = shown)
    /\ (Z.even h = true -> total = (t * shown)%Z).
Proof.
  intros Hout Ht [Hpos _] Hh _ shown.
  destruct (amount_floor yearsRemaining (frequency activity) Hout)
    as (mz & _ & Hm & Hshown).
  fold shown in Hshown.
  set (x := yearsRemaining * inject_Z mz) in *.
  assert (Htotal : totalCount activity yearsRemaining
                   = Js.Num (inject_Z (Qfloor (inject_Z t * x)))).
  { unfold totalCount, DataLoader.convertToYearlyFrequency.
    rewrite Hm. cbn [Js.mul Js.floor]. unfold Js.Math_floor.
    rewrite (Qfloor_comp
               (times (frequency activity) * inject_Z mz * yearsRemaining)
               (inject_Z t * x)); [reflexivity|].
    subst x. rewrite Ht. ring. }
  exists (Qfloor (inject_Z t * x)).
  split; [exact Htotal|].
  split.
  { eexists. unfold generateCalculationBreakdown. cbv zeta.
    cbn [calculation]. fold shown. rewrite Htotal. reflexivity. }
  rewrite Hshown.
  pose proof (Qfloor_le x) as Hlo.
  pose proof (Qlt_floor x) as Hhi.
  rewrite inject_Z_plus in Hhi. change (inject_Z 1) with 1 in Hhi.
  assert (HtQ : 0 <= inject_Z t).
  { change 0 with (inject_Z 0). rewrite <- Zle_Qle. exact Hpos. }
  assert (Hlower : (t * Qfloor x <= Qfloor (inject_Z t * x))%Z).
  { rewrite <- (Qfloor_Z (t * Qfloor x)). apply Qfloor_resp_le.
    rewrite inject_Z_mult. nra. }
  assert (Hupper : (Qfloor (inject_Z t * x)
                    <= t * Qfloor x + Z.max 0 (t - 1))%Z).
  { destruct (Z.eq_dec t 0) as [-> | Hnz].
    - rewrite (Qfloor_comp (inject_Z 0 * x) 0) by ring.
      change (Qfloor 0) with 0%Z. lia.
    - assert (H : (Qfloor (inject_Z t * x) < t * Qfloor x + t)%Z); [|lia].
      rewrite Zlt_Qlt.
      apply Qle_lt_trans with (inject_Z t * x); [apply Qfloor_le|].
      rewrite inject_Z_plus, inject_Z_mult.
      assert (H1 : 0 < inject_Z t).
      { change 0 with (inject_Z 0). rewrite <- Zlt_Qlt. lia. }
      assert (H2 : 0 < inject_Z t * (inject_Z (Qfloor x) + 1 - x)).
      { apply Qmult_lt_0_compat; lra. }
      lra. }
  repeat apply conj; try assumption.
  - intros ->. lia.
  - intros Heven.
    apply Z.even_spec in Heven as [y Hy].
    assert (Hx : x == inject_Z (y * mz)).
    { subst x. rewrite Hh, Hy, !inject_Z_mult.
      change (inject_Z 2) with 2. field. }
    rewrite (Qfloor_comp _ _ Hx), Qfloor_Z.
    rewrite (Qfloor_comp (inject_Z t * x) (inject_Z (t * (y * mz)))).
    + apply Qfloor_Z.
    + rewrite Hx, <- inject_Z_mult. reflexivity.
Qed.

End TimeRemainingFacts.

Lemma timeRemaining_follows_multipliers_witness :
  let once :=
    {| Loader.name := "Decades"; Loader.display := {| Loader.icon := "*" |};
       Loader.frequency := {| times := 1; period := "decade" |};
       Loader.description := "Round birthdays";
       Loader.metadata := {| Loader.is_active := None |} |} in
  Loader.totalCount once (43 # 2)
  = Js.Num (inject_Z
              (Loader.amount
                 (Loader.calculateTimeRemaining
                    (fun _ => "n"%string) (fun _ => "n"%string)
                    (43 # 2) {| times := 3; period := "decade" |})))
  /\ (0 <= Loader.amount
             (Loader.calculateTimeRemaining
                (fun _ => "n"%string) (fun _ => "n"%string)
                (43 # 2) {| times := 3; period := "decade" |}))%Z
  /\ Loader.unit_ (Loader.calculateTimeRemaining
                     (fun _ => "n"%string) (fun _ => "n"%string)
                     (43 # 2) {| times := 3; period := "decade" |})
     = "years"%string.
Proof.
  intros once.
  pose proof (timeRemaining_follows_multipliers
                (fun _ => "n"%string) (fun _ => "n"%string)
                (43 # 2) {| times := 3; period := "decade" |})
    as (Hsame & Hnonneg & Hyears).
  repeat apply conj.
  - apply Hsame; [|reflexivity].
    intros Hin. apply list_elem_of_In in Hin. cbn in Hin.
    intuition discriminate.
  - apply Hnonneg. discriminate.
  - apply Hyears; discriminate.
Defined.

Lemma breakdown_equation_witness :
  let activity :=
    {| Loader.name := "Sunsets"; Loader.display := {| Loader.icon := "*" |};
       Loader.frequency := {| times := 2; period := "week" |};
       Loader.description := "Evening walks";
       Loader.metadata := {| Loader.is_active := None |} |} in
  exists total : Z,
    Loader.totalCount activity (41 # 2) = Js.Num (inject_Z total)
    /\ (2 * Loader.amount
              (Loader.calculateTimeRemaining
                 (fun _ => "n"%string) (fun _ => "n"%string) (41 # 2)
                 (Loader.frequency activity))
        <= total
        <= 2 * Loader.amount
                 (Loader.calculateTimeRemaining
                    (fun _ => "n"%string) (fun _ => "n"%string) (41 # 2)
                    (Loader.frequency activity))
           + Z.max 0 (2 - 1))%Z.
Proof.
  intros activity.
  assert (Hout : period (Loader.frequency activity) ∉ Js.objectPrototype).
  { intros Hin. apply list_elem_of_In in Hin. cbn in Hin.
    intuition discriminate. }
  destruct (breakdown_equation
              (fun _ => "n"%string) (fun _ => "n"%string)
              activity (41 # 2) 2 41 Hout)
    as (total & Htotal & _ & Hbounds & _).
  - reflexivity.
  - split; discriminate.
  - reflexivity.
  - split; discriminate.
  - exists total. split; [exact Htotal | exact Hbounds].
Defined.

Section LabelFacts.

Local Open Scope Q_scope.

Import Loader.

Lemma string_length_append (a b : string) :
  String.length (a +:+ b) = (String.length a + String.length b)%nat.
Proof.
  induction a as [|c a IH]; simpl; [reflexivity|].
  rewrite IH. reflexivity.
Qed.

Lemma yearly_rate_known (f : Frequency) (p : string) (m : Q) :
  period f = p ->
  Js.or_number (Js.get DataLoader.multipliers p) 1 = Js.Num m ->
  DataLoader.convertToYearlyFrequency f = Js.Num (times f * m).
Proof.
  intros Hp Hm. unfold DataLoader.convertToYearlyFrequency.
  rewrite Hp, Hm. reflexivity.
Qed.

(** X10. A frequency that [formatFrequency] labels Annually has a yearly
    rate of 1, one labelled Monthly a rate of 12, one labelled Weekly a
    rate of 52, and one labelled Daily a rate of 365, or of 364 when it is
    written as 7 times a week; this holds however numbers are printed. *)
Theorem formatFrequency_label_names_rate
    (numberToString : Q -> string) (f : Frequency) :
  let label := formatFrequency numberToString f in
  let rate := DataLoader.convertToYearlyFrequency f in
  (label = "Annually"%string -> Js.eqv rate (Js.Num 1))
  /\ (label = "Monthly"%string -> Js.eqv rate (Js.Num 12))
  /\ (label = "Weekly"%string -> Js.eqv rate (Js.Num 52))
  /\ (label = "Daily"%string ->
      Js.eqv rate (Js.Num 365) \/ Js.eqv rate (Js.Num 364)).
Proof.
  cbv zeta. unfold formatFrequency. cbv zeta.
  assert (Hlong : forall (a b l : string),
             (String.length l < String.length b)%nat -> a +:+ b <> l).
  { intros a b l Hlen Heq. apply (f_equal String.length) in Heq.
    rewrite string_length_append in Heq. lia. }
  destruct (String.eqb_spec (period f) "day") as [Hp | _];
    [|destruct (String.eqb_spec (period f) "week") as [Hp | _];
      [|destruct (String.eqb_spec (period f) "month") as [Hp | _];
        [|destruct (String.eqb_spec (period f) "year") as [Hp | _]]]];
  repeat match goal with
         | |- context [Qeq_bool (times f) ?q] =>
             destruct (Qeq_bool (times f) q) eqn:?
         end;
  repeat apply conj; intros Hlabel; try discriminate Hlabel;
  try (exfalso; revert Hlabel; apply Hlong;
       rewrite ?string_length_append; cbn; lia);
  try match goal with
      | Hq : Qeq_bool (times f) ?q = true |- _ \/ _ =>
          apply Qeq_bool_iff in Hq;
          rewrite (yearly_rate_known f _ _ Hp eq_refl);
          cbn [Js.eqv];
          first [ left; rewrite Hq; reflexivity
                | right; rewrite Hq; reflexivity ]
      | Hq : Qeq_bool (times f) ?q = true |- _ =>
          apply Qeq_bool_iff in Hq;
          rewrite (yearly_rate_known f _ _ Hp eq_refl);
          cbn [Js.eqv]; rewrite Hq; reflexivity
      end.
Qed.

End LabelFacts.

Lemma formatFrequency_label_names_rate_witness :
  Js.eqv (DataLoader.convertToYearlyFrequency
            {| times := 7; period := "week" |}) (Js.Num 365)
  \/ Js.eqv (DataLoader.convertToYearlyFrequency
               {| times := 7; period := "week" |}) (Js.Num 364).
Proof.
  pose proof (formatFrequency_label_names_rate
                (fun _ => "n"%string) {| times := 7; period := "week" |})
    as (_ & _ & _ & Hdaily).
  apply Hdaily. reflexivity.
Defined.

Section QuoteFacts.

Local Open Scope Q_scope.

Import Loader.

(** X11. With a value of [Math.random()] in [0, 1) and at least one quote,
    [getRandomQuote] returns one of the quotes: the index it computes is
    never outside the list.  Without quotes, or with a missing quotes file,
    it returns [null]. *)
Theorem getRandomQuote_in_list (quotes : list Quote) (random : Q) :
  (quotes <> [] -> 0 <= random -> random < 1 ->
   exists q, getRandomQuote (Some quotes) random = Some q /\ q ∈ quotes)
  /\ getRandomQuote (Some []) random = None
  /\ getRandomQuote None random = None.
Proof.
  split; [|split; reflexivity].
  intros Hne Hlo Hhi. unfold getRandomQuote, loadFinitudeQuotes.
  cbv [from_option id]. cbv zeta.
  set (n := Z.of_nat (length quotes)).
  assert (Hn : (0 < n)%Z).
  { subst n. destruct quotes; [contradiction | cbn; lia]. }
  destruct (Z.eqb_spec n 0) as [|_]; [lia|].
  assert (HnQ : 0 < inject_Z n).
  { change 0 with (inject_Z 0). rewrite <- Zlt_Qlt. exact Hn. }
  set (i := Js.Math_floor (random * inject_Z n)).
  assert (Hi : (0 <= i < n)%Z).
  { subst i. split.
    - apply Math_floor_nonneg. apply Qmult_le_0_compat; lra.
    - rewrite Zlt_Qlt. unfold Js.Math_floor.
      apply Qle_lt_trans with (random * inject_Z n); [apply Qfloor_le|].
      assert (H : 0 < (1 - random) * inject_Z n)
        by (apply Qmult_lt_0_compat; lra).
      lra. }
  unfold JsArray.at_.
  destruct (Z.ltb_spec i 0) as [|_]; [lia|].
  destruct (lookup_lt_is_Some_2 quotes (Z.to_nat i)) as [q Hq].
  { subst n. lia. }
  exists q. split; [exact Hq|].
  apply list_elem_of_lookup. exists (Z.to_nat i). exact Hq.
Qed.

Lemma getRandomQuote_in_list_witness :
  exists q,
    getRandomQuote
      (Some [ {| quote_id := 1; quote := "Carpe diem"; author := "Horace" |};
              {| quote_id := 2; quote := "Memento mori"; author := "" |} ])
      (3 # 4)
    = Some q
    /\ q ∈ [ {| quote_id := 1; quote := "Carpe diem"; author := "Horace" |};
            {| quote_id := 2; quote := "Memento mori"; author := "" |} ].
Proof.
  apply (proj1 (getRandomQuote_in_list
                  [ {| quote_id := 1; quote := "Carpe diem";
                       author := "Horace" |};
                    {| quote_id := 2; quote := "Memento mori";
                       author := "" |} ] (3 # 4))).
  - discriminate.
  - discriminate.
  - reflexivity.
Defined.

End QuoteFacts.

(** ** Timers and focus of the sequencer *)

Section TimerFacts.

Import Finitude.
Import Editing.

Lemma handle_keeps_refs (e : Event) (s : State) :
  intervalRef (handle e s) = intervalRef s
  /\ progressRef (handle e s) = progressRef s.
Proof.
  destruct e; cbn [handle];
    unfold handleTouchEnd, nextCard, prevCard;
    repeat match goal with
           | |- context [if ?b then _ else _] => destruct b eqn:?
           end; split; cbn; congruence.
Qed.

Lemma timersMatch_autoPlayEffect (s : State) :
  timersMatch (autoPlayEffect s).
Proof.
  unfold timersMatch, autoPlayEffect.
  destruct (isAutoPlaying s && (0 <? cardsLength s)) eqn:Hcond;
    split; cbn; symmetry; exact Hcond.
Qed.

Lemma depsChanged_false (s s' : State) :
  depsChanged s s' = false ->
  isAutoPlaying s' = isAutoPlaying s
  /\ currentCard s' = currentCard s
  /\ cardsLength s' = cardsLength s.
Proof.
  unfold depsChanged. intros H.
  apply negb_false_iff in H.
  apply andb_true_iff in H as [H Hlen].
  apply andb_true_iff in H as [Hplay Hcard].
  apply Bool.eqb_prop in Hplay.
  apply Z.eqb_eq in Hcard, Hlen. auto.
Qed.

Lemma depsChanged_same (s s' : State) :
  isAutoPlaying s' = isAutoPlaying s ->
  currentCard s' = currentCard s ->
  activities s' = activities s ->
  depsChanged s s' = false.
Proof.
  intros Hplay Hcard Hact. unfold depsChanged.
  rewrite Hplay, Hcard, (cardsLength_same s s' Hact).
  rewrite Bool.eqb_reflx, !Z.eqb_refl. reflexivity.
Qed.

Lemma timersMatch_dispatch (e : Event) (s : State) :
  timersMatch s -> timersMatch (dispatch e s).
Proof.
  intros [Hi Hp]. unfold dispatch, commit.
  destruct (depsChanged s (handle e s)) eqn:Hdeps.
  - apply timersMatch_autoPlayEffect.
  - apply depsChanged_false in Hdeps as (Hplay & _ & Hlen).
    destruct (handle_keeps_refs e s) as [Hi' Hp'].
    unfold timersMatch. rewrite Hi', Hp', Hplay, Hlen. auto.
Qed.

Lemma timersMatch_reachable (s : State) : reachable s -> timersMatch s.
Proof.
  induction 1 as [|e s _ IH].
  - split; reflexivity.
  - apply timersMatch_dispatch. exact IH.
Qed.

(** X12. In every reachable state the two intervals are live exactly when
    auto play is on and there is at least one card.  So while the component
    is paused, or has no card, its timers change nothing, and the rotation
    timer never runs on an empty sequence. *)
Theorem timers_follow_auto_play (s : State) :
  reachable s ->
  timersMatch s
  /\ (isAutoPlaying s = false \/ cardsLength s = 0 ->
      dispatch ProgressTimer s = s /\ dispatch CardTimer s = s)
  /\ (intervalRef s = true -> 0 < cardsLength s).
Proof.
  intros Hreach.
  pose proof (timersMatch_reachable s Hreach) as Hmatch.
  split; [exact Hmatch|]. destruct Hmatch as [Hi Hp]. split.
  - intros Hoff.
    assert (Hcond : isAutoPlaying s && (0 <? cardsLength s) = false).
    { destruct Hoff as [-> | ->]; [reflexivity|].
      apply andb_false_r. }
    rewrite Hcond in Hi, Hp.
    unfold dispatch, commit. cbn [handle]. rewrite Hi, Hp.
    rewrite (depsChanged_same s s) by reflexivity. auto.
  - intros Hlive. rewrite Hlive in Hi. symmetry in Hi.
    apply andb_true_iff in Hi as [_ Hlen]. apply Z.ltb_lt in Hlen.
    exact Hlen.
Qed.

Lemma timers_follow_auto_play_witness :
  dispatch ProgressTimer (dispatch CardClick Sample.threeCards)
  = dispatch CardClick Sample.threeCards.
Proof.
  assert (Hreach : reachable (dispatch CardClick Sample.threeCards))
    by (repeat apply reachable_dispatch; apply reachable_initial).
  destruct (timers_follow_auto_play _ Hreach) as (_ & Hidle & _).
  apply Hidle. left. reflexivity.
Defined.

(** X13. A tap, that is a touch that starts and ends without moving,
    never changes the card: [handleTouchStart] clears what an earlier
    gesture left in [touchEnd], so the two events only record where the
    touch began. *)
Theorem tap_does_not_navigate (s : State) (clientX : Q) :
  run [TouchStart clientX; TouchEnd] s = handleTouchStart clientX s
  /\ currentCard (run [TouchStart clientX; TouchEnd] s) = currentCard s
  /\ progress (run [TouchStart clientX; TouchEnd] s) = progress s.
Proof.
  assert (Hrun : run [TouchStart clientX; TouchEnd] s
                 = handleTouchStart clientX s).
  { unfold run. cbn [fold_left]. unfold dispatch at 2, commit.
    cbn [handle].
    rewrite (depsChanged_same s (handleTouchStart clientX s))
      by reflexivity.
    unfold dispatch, commit. cbn [handle].
    assert (Hend : handleTouchEnd (handleTouchStart clientX s)
                   = handleTouchStart clientX s).
    { unfold handleTouchEnd.
      cbn [touchStart touchEnd handleTouchStart setTouchStart setTouchEnd
           Js.not].
      rewrite orb_true_r. reflexivity. }
    rewrite Hend.
    rewrite (depsChanged_same _ _ eq_refl eq_refl eq_refl). reflexivity. }
  rewrite Hrun. repeat split.
Qed.

End TimerFacts.

Section FocusFacts.

Import Finitude.
Import Editing.

Lemma commit_keeps_focus (s s' : State) :
  currentCard (commit s s') = currentCard s'
  /\ activities (commit s s') = activities s'.
Proof.
  unfold commit. destruct (depsChanged s s'); [|auto].
  unfold autoPlayEffect.
  destruct (isAutoPlaying (stopAutoPlay s')
            && (0 <? cardsLength (stopAutoPlay s'))); auto.
Qed.

Lemma dispatch_focus (e : Event) (s : State) :
  currentCard (dispatch e s) = currentCard (handle e s)
  /\ cardsLength (dispatch e s) = cardsLength (handle e s).
Proof.
  unfold dispatch.
  destruct (commit_keeps_focus s (handle e s)) as [Hc Ha].
  split; [exact Hc | apply cardsLength_same; exact Ha].
Qed.

(** X14. Going to the next card and back, or to the previous card and
    forth, returns the focus to where it was, whether by the arrows or
    through the state updates the arrows trigger. *)
Theorem next_and_previous_cancel (s : State) :
  0 < cardsLength s -> 0 <= currentCard s < cardsLength s ->
  currentCard (prevCard (nextCard s)) = currentCard s
  /\ currentCard (nextCard (prevCard s)) = currentCard s
  /\ currentCard (run [NextClick; PrevClick] s) = currentCard s
  /\ currentCard (run [PrevClick; NextClick] s) = currentCard s.
Proof.
  intros HN Hc.
  assert (Hround : forall a b : State,
             cardsLength a = cardsLength s -> cardsLength b = cardsLength s ->
             (currentCard a = (currentCard s + 1) mod cardsLength s ->
              currentCard (prevCard a) = currentCard s)
             /\ (currentCard b = (currentCard s - 1) mod cardsLength s ->
                 currentCard (nextCard b) = currentCard s)).
  { intros a b Ha Hb. split; intros Hcur.
    - rewrite prevCard_currentCard; rewrite ?Ha, ?Hcur; try lia.
      + rewrite Zminus_mod_idemp_l.
        replace (currentCard s + 1 - 1) with (currentCard s) by lia.
        apply Z.mod_small. exact Hc.
      + apply Z.mod_pos_bound. lia.
    - rewrite nextCard_currentCard; rewrite ?Hb, ?Hcur; try lia.
      + rewrite Zplus_mod_idemp_l.
        replace (currentCard s - 1 + 1) with (currentCard s) by lia.
        apply Z.mod_small. exact Hc.
      + apply Z.mod_pos_bound. lia. }
  repeat apply conj.
  - apply (Hround (nextCard s) s);
      [apply cardsLength_same, nextCard_activities | reflexivity |].
    apply nextCard_currentCard; lia.
  - apply (Hround s (prevCard s));
      [reflexivity | apply cardsLength_same, prevCard_activities |].
    apply prevCard_currentCard; lia.
  - unfold run. cbn [fold_left].
    destruct (dispatch_focus NextClick s) as [Hc1 Hl1].
    destruct (dispatch_focus PrevClick (dispatch NextClick s)) as [Hc2 _].
    cbn [handle] in *. rewrite Hc2.
    rewrite (cardsLength_same s (nextCard s) (nextCard_activities s)) in Hl1.
    apply (Hround (dispatch NextClick s) s); [exact Hl1 | reflexivity |].
    rewrite Hc1. apply nextCard_currentCard; lia.
  - unfold run. cbn [fold_left].
    destruct (dispatch_focus PrevClick s) as [Hc1 Hl1].
    destruct (dispatch_focus NextClick (dispatch PrevClick s)) as [Hc2 _].
    cbn [handle] in *. rewrite Hc2.
    rewrite (cardsLength_same s (prevCard s) (prevCard_activities s)) in Hl1.
    apply (Hround s (dispatch PrevClick s)); [reflexivity | exact Hl1 |].
    rewrite Hc1. apply prevCard_currentCard; lia.
Qed.

Lemma next_and_previous_cancel_witness :
  currentCard (run [NextClick; PrevClick] Sample.threeCards)
  = currentCard Sample.threeCards.
Proof.
  refine (proj1 (proj2 (proj2 (next_and_previous_cancel
                                 Sample.threeCards _ _)))).
  - reflexivity.
  - vm_compute. split; [discriminate | reflexivity].
Defined.

Lemma handle_focusValid (e : Event) (s : State) :
  focusValid s -> timersMatch s ->
  (forall l, e = ActivitiesChange l ->
             (length (activities s) <= length l)%nat) ->
  currentCard (handle e s) = currentCard s
  /\ cardsLength s <= cardsLength (handle e s)
  \/ 0 < cardsLength s
     /\ cardsLength (handle e s) = cardsLength s
     /\ 0 <= currentCard (handle e s) < cardsLength s.
Proof.
  intros (Hc0 & Hc) [Hi _] Hgrow.
  assert (Hnext : 0 < cardsLength s ->
                  0 <= Z.rem (currentCard s + 1) (cardsLength s)
                    < cardsLength s).
  { intros HN. rewrite Z.rem_mod_nonneg by lia.
    apply Z.mod_pos_bound. exact HN. }
  assert (Hprev : 0 < cardsLength s ->
                  0 <= Z.rem (currentCard s - 1 + cardsLength s)
                         (cardsLength s)
                    < cardsLength s).
  { intros HN. rewrite Z.rem_mod_nonneg by lia.
    apply Z.mod_pos_bound. exact HN. }
  destruct e as [| | | | x | x | | | | | v | p | l]; cbn [handle];
    try (left; split;
         [reflexivity | rewrite !cardsLength_activities; apply Z.le_refl]).
  - destruct (progressRef s); left; split; try reflexivity; apply Z.le_refl.
  - destruct (intervalRef s) eqn:Hlive;
      [|left; split; [reflexivity | apply Z.le_refl]].
    symmetry in Hi.
    apply andb_true_iff in Hi as [_ HN]. apply Z.ltb_lt in HN.
    right. split; [exact HN|]. split; [reflexivity|].
    apply Hnext. exact HN.
  - unfold nextCard. destruct (Z.ltb_spec 0 (cardsLength s)) as [HN|];
      [|left; split; [reflexivity | apply Z.le_refl]].
    right. split; [exact HN|]. split; [reflexivity|].
    apply Hnext. exact HN.
  - unfold prevCard. destruct (Z.ltb_spec 0 (cardsLength s)) as [HN|];
      [|left; split; [reflexivity | apply Z.le_refl]].
    right. split; [exact HN|]. split; [reflexivity|].
    apply Hprev. exact HN.
  - unfold handleTouchEnd, nextCard, prevCard.
    destruct (Js.not (touchStart s) || Js.not (touchEnd s));
      [left; split; [reflexivity | apply Z.le_refl]|].
    cbv zeta.
    destruct (Z.ltb_spec 0 (cardsLength s)) as [HN|];
      repeat match goal with
             | |- context [if ?b then _ else _] => destruct b
             end;
      first [ left; split; [reflexivity | apply Z.le_refl]
            | right; split; [exact HN|]; split; [reflexivity|];
              first [apply Hnext | apply Hprev]; exact HN ].
  - left. split; [reflexivity|].
    rewrite !cardsLength_activities. cbn [activities setActivities].
    specialize (Hgrow l eq_refl). lia.
Qed.

(** X15. Starting from a reachable state where the focus is on a card (or
    at 0 while there is none), every event that does not shorten the list
    of activities leaves the focus on a card; and wherever the focus is
    valid and there are cards, the focused card [cardsWithCounts[currentCard]]
    exists. *)
Theorem focus_stays_on_a_card (e : Event) (s : State) :
  reachable s -> focusValid s ->
  (forall l, e = ActivitiesChange l ->
             (length (activities s) <= length l)%nat) ->
  focusValid (dispatch e s)
  /\ (0 < cardsLength s -> is_Some (currentActivity s))
  /\ (0 < cardsLength (dispatch e s) ->
      is_Some (currentActivity (dispatch e s))).
Proof.
  intros Hreach Hvalid Hgrow.
  assert (Hsome : forall x, focusValid x -> 0 < cardsLength x ->
                            is_Some (currentActivity x)).
  { intros x (Hx0 & Hx) HN. unfold currentActivity, JsArray.at_.
    destruct (Z.ltb_spec (currentCard x) 0); [lia|].
    apply lookup_lt_is_Some_2. unfold cardsLength in *. lia. }
  assert (Hnew : focusValid (dispatch e s)).
  { pose proof (timersMatch_reachable s Hreach) as Hmatch.
    destruct (dispatch_focus e s) as [Hc Hl].
    unfold focusValid. rewrite Hc, Hl.
    pose proof Hvalid as (Hv0 & Hv).
    destruct (handle_focusValid e s Hvalid Hmatch Hgrow)
      as [[Hsame Hlen] | (HN & Hlen & Hin)].
    - rewrite Hsame. split; [exact Hv0|].
      destruct Hv as [Hlt | [Hz Hc0]]; [left; lia|].
      destruct (Z.eq_dec (cardsLength (handle e s)) 0) as [Hz' | Hnz];
        [right; auto | left].
      pose proof (cardsLength_activities (handle e s)). lia.
    - rewrite Hlen. split; [lia | left; lia]. }
  split; [exact Hnew|]. split.
  - apply Hsome. exact Hvalid.
  - apply Hsome. exact Hnew.
Qed.

Lemma focus_stays_on_a_card_witness :
  focusValid (dispatch CardTimer Sample.threeCards)
  /\ is_Some (currentActivity (dispatch CardTimer Sample.threeCards)).
Proof.
  assert (Hreach : reachable Sample.threeCards)
    by (repeat apply reachable_dispatch; apply reachable_initial).
  assert (Hvalid : focusValid Sample.threeCards).
  { split; [discriminate | left; reflexivity]. }
  destruct (focus_stays_on_a_card CardTimer Sample.threeCards Hreach Hvalid)
    as (Hfocus & _ & Hcard).
  - intros l Hl. discriminate Hl.
  - split; [exact Hfocus | apply Hcard; reflexivity].
Defined.

End FocusFacts.

(** ** Editing the activities *)

Section ActivityEditing.

Import Finitude.
Import Editing.

Lemma updateActivities_component (l : list LegacyActivity) (e : Editor) :
  activities (component (updateActivities l e)) = l
  /\ currentCard (component (updateActivities l e))
     = currentCard (component e)
  /\ savedActivities (updateActivities l e) = Some l.
Proof.
  unfold updateActivities. cbn [component savedActivities].
  destruct (commit_keeps_focus (component e)
              (handle (ActivitiesChange l) (component e))) as [Hc Ha].
  unfold dispatch. rewrite Hc, Ha. repeat split.
Qed.

Lemma filter_other_ids (k : Z) (l : list LegacyActivity) :
  (k ∉ map id l ->
   List.filter (fun act => negb (id act =? k)) l = l)
  /\ (NoDup (map id l) -> k ∈ map id l ->
      S (length (List.filter (fun act => negb (id act =? k)) l))
      = length l).
Proof.
  induction l as [|a l [IHout IHin]]; cbn [map List.filter].
  - split; [reflexivity|]. intros _ H. inversion H.
  - split.
    + intros Hout. rewrite not_elem_of_cons in Hout.
      destruct Hout as [Hne Hout].
      destruct (Z.eqb_spec (id a) k) as [Heq|_]; [congruence|].
      cbn [negb]. rewrite (IHout Hout). reflexivity.
    + intros Hdup Hin. apply NoDup_cons in Hdup as [Hfresh Hdup].
      destruct (Z.eqb_spec (id a) k) as [Heq | Hne]; cbn [negb].
      * subst k. rewrite (IHout Hfresh). reflexivity.
      * cbn [length]. f_equal. apply IHin; [exact Hdup|].
        apply elem_of_cons in Hin as [Hin | Hin]; [congruence | exact Hin].
Qed.

Lemma filter_drops_one
    (f : LegacyActivity -> bool) (l : list LegacyActivity)
    (a : LegacyActivity) :
  In a l -> f a = false ->
  (length (List.filter f l) < length l)%nat.
Proof.
  intros Hin Hf. induction l as [|b l IH]; [contradiction|].
  cbn [List.filter]. destruct Hin as [-> | Hin].
  - rewrite Hf. pose proof (List.filter_length_le f l). cbn [length]. lia.
  - specialize (IH Hin). destruct (f b); cbn [length]; lia.
Qed.

(** X16. [handleActivityDelete] removes exactly the activities with the
    given id, keeps the others in their order and hands the new list to
    [saveUserActivities]; with ids that are all different it removes one
    activity when the id is there and none otherwise. *)
Theorem delete_removes_the_id (activityId : Z) (e : Editor) :
  let before := activities (component e) in
  let after := activities (component (handleActivityDelete activityId e)) in
  (forall a, a ∈ after <-> a ∈ before /\ id a <> activityId)
  /\ sublist after before
  /\ savedActivities (handleActivityDelete activityId e) = Some after
  /\ (activityId ∉ map id before -> after = before)
  /\ (NoDup (map id before) -> activityId ∈ map id before ->
      S (length after) = length before).
Proof.
  cbv zeta. unfold handleActivityDelete. cbv zeta.
  destruct (updateActivities_component
              (List.filter (fun act => negb (id act =? activityId))
                 (activities (component e))) e) as (-> & _ & ->).
  repeat apply conj.
  - intros a. rewrite !list_elem_of_In, List.filter_In, negb_true_iff.
    rewrite Z.eqb_neq. reflexivity.
  - induction (activities (component e)) as [|a l IH]; cbn [List.filter].
    + constructor.
    + destruct (negb (id a =? activityId));
        [apply sublist_skip | apply sublist_cons]; exact IH.
  - reflexivity.
  - apply filter_other_ids.
  - apply filter_other_ids.
Qed.

Lemma delete_removes_the_id_witness :
  S (length (activities
               (component (handleActivityDelete 2 SampleEditing.editor))))
  = length (activities (component SampleEditing.editor)).
Proof.
  refine (proj2 (proj2 (proj2 (proj2 (delete_removes_the_id
                                        2 SampleEditing.editor)))) _ _).
  - vm_compute. apply NoDup_ListNoDup.
    repeat (constructor; [cbn; lia|]). constructor.
  - apply list_elem_of_In. vm_compute. tauto.
Defined.

(** X17. [handleActivitySave] leaves the ids of the list, and so its
    length and order, as they were; it puts the edited activity in the
    place of every activity with its id, changes nothing when no activity
    has that id, hands the list to [saveUserActivities] and closes the
    editor. *)
Theorem save_replaces_in_place (updated : LegacyActivity) (e : Editor) :
  let before := activities (component e) in
  let after := activities (component (handleActivitySave updated e)) in
  map id after = map id before
  /\ (forall (i : nat) (a : LegacyActivity),
         before !! i = Some a ->
         (id a = id updated -> after !! i = Some updated)
         /\ (id a <> id updated -> after !! i = Some a))
  /\ (id updated ∉ map id before -> after = before)
  /\ savedActivities (handleActivitySave updated e) = Some after
  /\ editingActivity (handleActivitySave updated e) = None.
Proof.
  cbv zeta. unfold handleActivitySave. cbv zeta.
  cbn [component savedActivities editingActivity setEditingActivity].
  destruct (updateActivities_component
              (map (fun act => if id act =? id updated then updated else act)
                 (activities (component e))) e) as (-> & _ & ->).
  repeat apply conj; try reflexivity.
  - rewrite List.map_map. apply List.map_ext. intros a.
    destruct (Z.eqb_spec (id a) (id updated)); congruence.
  - intros i a Hi.
    change (map ?f ?l) with (f <$> l).
    rewrite list_lookup_fmap, Hi. cbn.
    destruct (Z.eqb_spec (id a) (id updated)); split; congruence.
  - intros Hout.
    induction (activities (component e)) as [|a l IH]; [reflexivity|].
    cbn [map] in *. rewrite not_elem_of_cons in Hout.
    destruct Hout as [Hne Hout].
    destruct (Z.eqb_spec (id a) (id updated)); [congruence|].
    rewrite (IH Hout). reflexivity.
Qed.

Lemma save_replaces_in_place_witness :
  activities (component (handleActivitySave (Sample.legacy 2)
                           SampleEditing.editor)) !! 1%nat
  = Some (Sample.legacy 2).
Proof.
  refine (proj1 (proj1 (proj2 (save_replaces_in_place
                                 (Sample.legacy 2) SampleEditing.editor))
                   1%nat (Sample.legacy 2) _) _).
  - reflexivity.
  - reflexivity.
Defined.

(** X18. [handleAddActivity] puts the new activity at the end of the list,
    opens it in the editor and leaves the focus where it was; when its id
    (the clock reading) is not yet in use, deleting that id afterwards
    gives the list back as it was before. *)
Theorem add_then_delete (now : Z) (e : Editor) :
  let added := handleAddActivity now e in
  activities (component added)
  = activities (component e) ++ [newActivity now]
  /\ editingActivity added = Some (newActivity now)
  /\ currentCard (component added) = currentCard (component e)
  /\ (now ∉ map id (activities (component e)) ->
      activities (component (handleActivityDelete now added))
      = activities (component e)).
Proof.
  cbv zeta. unfold handleAddActivity. cbv zeta.
  cbn [component editingActivity setEditingActivity].
  destruct (updateActivities_component
              (activities (component e) ++ [newActivity now]) e)
    as (Hact & Hfocus & _).
  repeat apply conj; try assumption; try reflexivity.
  intros Hfresh. unfold handleActivityDelete. cbv zeta.
  cbn [component setEditingActivity].
  destruct (updateActivities_component
              (List.filter (fun act => negb (id act =? now))
                 (activities
                    (component
                       (updateActivities
                          (activities (component e) ++ [newActivity now])
                          e))))
              (setEditingActivity (Some (newActivity now))
                 (updateActivities
                    (activities (component e) ++ [newActivity now]) e)))
    as (Hdel & _ & _).
  cbn [component setEditingActivity] in Hdel. rewrite Hdel, Hact.
  rewrite List.filter_app. cbn [List.filter newActivity id].
  rewrite Z.eqb_refl. cbn [negb].
  rewrite (proj1 (filter_other_ids now (activities (component e))) Hfresh).
  apply app_nil_r.
Qed.

Lemma add_then_delete_witness :
  activities (component (handleActivityDelete 1767225600000
                           (handleAddActivity 1767225600000
                              SampleEditing.editor)))
  = activities (component SampleEditing.editor).
Proof.
  refine (proj2 (proj2 (proj2 (add_then_delete
                                 1767225600000 SampleEditing.editor))) _).
  intros Hin. apply list_elem_of_In in Hin. vm_compute in Hin.
  intuition discriminate.
Defined.

(** X19. [handleActivityDelete] does not move the focus.  Deleting an
    activity while the focus is on the last card therefore leaves the focus
    past the end of the shortened sequence, where
    [cardsWithCounts[currentCard]] is [undefined]; with more than one card
    before the deletion the focus is then no longer valid. *)
Theorem delete_leaves_focus_behind (activityId : Z) (e : Editor) :
  let deleted := component (handleActivityDelete activityId e) in
  currentCard deleted = currentCard (component e)
  /\ (activityId ∈ map id (activities (component e)) ->
      currentCard (component e) = cardsLength (component e) - 1 ->
      currentActivity deleted = None
      /\ (1 < cardsLength (component e) -> ~ focusValid deleted)).
Proof.
  cbv zeta. unfold handleActivityDelete. cbv zeta.
  destruct (updateActivities_component
              (List.filter (fun act => negb (id act =? activityId))
                 (activities (component e))) e) as (Hact & Hfocus & _).
  split; [exact Hfocus|].
  intros Hin Hlast.
  set (deleted := component
                    (updateActivities
                       (List.filter (fun act => negb (id act =? activityId))
                          (activities (component e))) e)) in *.
  assert (Hshort : cardsLength deleted < cardsLength (component e)).
  { rewrite !cardsLength_activities, Hact.
    apply list_elem_of_In, List.in_map_iff in Hin as (a & Ha & Hin).
    pose proof (filter_drops_one
                  (fun act => negb (id act =? activityId))
                  (activities (component e)) a Hin) as Hdrop.
    cbv beta in Hdrop. rewrite Ha, Z.eqb_refl in Hdrop.
    specialize (Hdrop eq_refl). lia. }
  assert (Hpos : 0 <= cardsLength deleted).
  { rewrite cardsLength_activities. lia. }
  split.
  - unfold currentActivity, JsArray.at_. rewrite Hfocus, Hlast.
    destruct (Z.ltb_spec (cardsLength (component e) - 1) 0);
      [reflexivity|].
    apply lookup_ge_None. unfold cardsLength in *. lia.
  - intros Hmany (_ & Hvalid). rewrite Hfocus, Hlast in Hvalid. lia.
Qed.

Lemma delete_leaves_focus_behind_witness :
  currentActivity
    (component (handleActivityDelete 1 SampleEditing.editorOnLastCard))
  = None.
Proof.
  refine (proj1 (proj2 (delete_leaves_focus_behind
                          1 SampleEditing.editorOnLastCard) _ _)).
  - apply list_elem_of_In. vm_compute. tauto.
  - reflexivity.
Defined.

End ActivityEditing.

(** ** Editing the profile *)

Section ProfileEditing.

Local Open Scope Q_scope.

Import Finitude.
Import Editing.

Lemma dispatch_ProfileChange (p : option UserProfile) (s : State) :
  dispatch (ProfileChange p) s = setUserProfile p s.
Proof.
  unfold dispatch, commit. cbn [handle].
  rewrite (depsChanged_same s (setUserProfile p s)) by reflexivity.
  reflexivity.
Qed.

(** X20. After [handleAgeChange] the stored birth year is the current year
    minus the chosen age, so the [getCurrentAge] of the data loader gives
    the chosen age back, and the one of the calculation utilities gives it
    back exactly from the birthday month on; the profile shown, the profile
    kept and the profile handed to [saveUserProfile] are the same; and the
    age the component reads is the chosen one, except that a chosen age of
    0 reads as 57. *)
Theorem age_change_round_trip
    (now : Date) (value : Z) (e : Editor) (p : StoredProfile) :
  profile e = Some p ->
  exists p',
    profile (handleAgeChange now value e) = Some p'
    /\ savedProfile (handleAgeChange now value e) = Some p'
    /\ userProfile (component (handleAgeChange now value e))
       = Some (view p')
    /\ DataLoader.getCurrentAge now (toProfile p') = value
    /\ (Calculations.getCurrentAge now (toProfile p') = value
        <-> (birth_month p <= getMonth now + 1)%Z)
    /\ (value <> 0%Z ->
        currentAge (component (handleAgeChange now value e))
        = inject_Z value)
    /\ (value = 0%Z ->
        currentAge (component (handleAgeChange now value e)) = 57)
    /\ years p' = years p
    /\ birth_month p' = birth_month p
    /\ profile_name p' = profile_name p.
Proof.
  intros Hp. unfold handleAgeChange. rewrite Hp. cbv zeta.
  eexists. split; [reflexivity|]. split; [reflexivity|].
  unfold updateProfile. cbn [component].
  rewrite dispatch_ProfileChange.
  split; [reflexivity|].
  unfold DataLoader.getCurrentAge, Calculations.getCurrentAge.
  unfold toProfile, ageProfile. cbn.
  repeat apply conj; try reflexivity.
  - lia.
  - destruct (Z.ltb_spec (getMonth now + 1) (birth_month p)); lia.
  - destruct (Z.ltb_spec (getMonth now + 1) (birth_month p)); lia.
  - intros Hnz. unfold currentAge. cbn.
    destruct (Qeq_bool (inject_Z value) 0) eqn:Hz; [|reflexivity].
    apply Qeq_bool_iff in Hz. change 0 with (inject_Z 0) in Hz.
    rewrite inject_Z_injective in Hz. contradiction.
  - intros ->. reflexivity.
Qed.

Lemma age_change_round_trip_witness :
  exists p',
    profile (handleAgeChange Sample.june2026 40 SampleEditing.editor)
    = Some p'
    /\ DataLoader.getCurrentAge Sample.june2026 (toProfile p') = 40%Z.
Proof.
  destruct (age_change_round_trip
              Sample.june2026 40 SampleEditing.editor SampleEditing.stored
              eq_refl)
    as (p' & Hprofile & _ & _ & Hage & _).
  exists p'. split; [exact Hprofile | exact Hage].
Defined.

(** X21. [handleLifespanChange] and [handleAgeChange] write different
    fields of the profile, so the order in which they run does not matter;
    after [handleLifespanChange] the life expectancy the component reads is
    the chosen value, except that a chosen value of 0 reads as 78.5; and
    without a loaded profile the three profile handlers change nothing and
    save nothing. *)
Theorem profile_changes_commute
    (now : Date) (stamp : string) (newAge : Z) (newYears : Q)
    (newName : string) (e : Editor) :
  handleAgeChange now newAge (handleLifespanChange stamp newYears e)
  = handleLifespanChange stamp newYears (handleAgeChange now newAge e)
  /\ (profile e <> None -> ~ newYears == 0 ->
      lifeExpectancy (component (handleLifespanChange stamp newYears e))
      = newYears)
  /\ (profile e <> None -> newYears == 0 ->
      lifeExpectancy (component (handleLifespanChange stamp newYears e))
      = 157 # 2)
  /\ (profile e = None ->
      handleLifespanChange stamp newYears e = e
      /\ handleAgeChange now newAge e = e
      /\ handleNameChange newName e = e).
Proof.
  unfold handleAgeChange, handleLifespanChange, handleNameChange.
  destruct (profile e) as [p|] eqn:Hp.
  - cbn [profile updateProfile]. cbv zeta.
    unfold updateProfile. cbn [component editingActivity savedActivities
      profile_name age birth_year birth_month years last_updated].
    rewrite !dispatch_ProfileChange.
    repeat apply conj.
    + reflexivity.
    + intros _ Hnz. unfold lifeExpectancy. cbn.
      destruct (Qeq_bool newYears 0) eqn:Hz; [|reflexivity].
      apply Qeq_bool_iff in Hz. contradiction.
    + intros _ Hz. unfold lifeExpectancy. cbn.
      apply Qeq_bool_iff in Hz. rewrite Hz. reflexivity.
    + discriminate.
  - rewrite ?Hp. cbn. rewrite ?Hp.
    repeat apply conj;
      [ reflexivity
      | intros H; contradiction
      | intros H; contradiction
      | intros _; repeat split ].
Qed.

Lemma profile_changes_commute_witness :
  lifeExpectancy
    (component (handleLifespanChange "2026-06-01T00:00:00.000Z" 90
                  SampleEditing.editor)) = 90
  /\ handleAgeChange Sample.june2026 40 SampleEditing.editorWithoutProfile
     = SampleEditing.editorWithoutProfile.
Proof.
  pose proof (profile_changes_commute
                Sample.june2026 "2026-06-01T00:00:00.000Z" 40 90 "Ada"
                SampleEditing.editor) as (_ & Hyears & _).
  pose proof (profile_changes_commute
                Sample.june2026 "2026-06-01T00:00:00.000Z" 40 90 "Ada"
                SampleEditing.editorWithoutProfile) as (_ & _ & _ & Hnone).
  split.
  - apply Hyears; discriminate.
  - apply Hnone. reflexivity.
Defined.



End ProfileEditing.
